(** * Amplitude estimation: aggregation, maximum likelihood and confidence
      intervals of [qiskit/aqua/algorithms/single_sample/amplitude_estimation/ae.py]

    The development embeds the post-measurement part of the class
    [AmplitudeEstimation]: [_evaluate_statevector_results], the aggregation
    and bookkeeping of [_run], [mle] and [ci].

    Numbers.  Python integers are [Z] (or [nat] where the code only counts).
    Python floats are modelled by the canonical rationals [Qc]: arithmetic
    is exact, equality is Leibniz equality and every operation computes.
    Where the rounding of binary64 decides a statement, the code concerned
    is written over an abstract arithmetic and run on the primitive
    binary64 floats as well.  A division by zero, which numpy answers
    with an infinity or a nan, has no counterpart on the rationals:
    statements about a quotient are made for a divisor other than zero.
    Functions with irrational values ([np.sin], [np.pi], [np.sqrt]) and the
    helpers imported from [qiskit.aqua.utils] ([loglik], [bisect_max],
    [chi2_quantile], [normal_quantile], [fisher_information], [d_logprob])
    are not part of the file under study; they are parameters of the
    sections below. *)

From Stdlib Require Import ZArith QArith Qcanon Qround List Bool Ascii String.
From Stdlib Require Import Lia Sorted Permutation PrimFloat.
Import ListNotations.

Set Implicit Arguments.
Set Warnings "-inexact-float".

(** ** Python strings *)

Module Py.

Local Open Scope char_scope.

(** A Python [str] seen as its sequence of characters. *)
Definition str := list ascii.

(** Binary digits of a positive number, most significant first. *)
Fixpoint pos_digits (p : positive) : str :=
  match p with
  | xH => ["1"]
  | xO q => pos_digits q ++ ["0"]
  | xI q => pos_digits q ++ ["1"]
  end.

(** ["{0:b}".format(i)] for a non-negative [i]. *)
Definition format_b (i : nat) : str :=
  match N.of_nat i with
  | N0 => ["0"]
  | Npos p => pos_digits p
  end.

(** [s.rjust(width, fill)]: pads on the left, never truncates. *)
Definition rjust (s : str) (width : nat) (fill : ascii) : str :=
  repeat fill (width - List.length s) ++ s.

(** [s[::-1]] *)
Definition reversed (s : str) : str := rev s.

(** [s[:n]] for a non-negative [n]. *)
Definition prefix (n : nat) (s : str) : str := firstn n s.

(** [s.replace(' ', '')] *)
Definition strip_spaces (s : str) : str :=
  filter (fun c => negb (Ascii.eqb c " ")) s.

Definition digit2 (c : ascii) : option Z :=
  if Ascii.eqb c "0" then Some 0%Z
  else if Ascii.eqb c "1" then Some 1%Z
  else None.

Fixpoint int2_acc (acc : Z) (s : str) : option Z :=
  match s with
  | [] => Some acc
  | c :: s' =>
      match digit2 c with
      | Some d => int2_acc (2 * acc + d)%Z s'
      | None => None
      end
  end.

(** [int(s, 2)] on a string of binary digits; [None] stands for the
    [ValueError] Python raises on the empty string and on any other
    character.  Python also accepts a sign, blanks around the number, a
    prefix [0b] and underscores between digits; the strings read here,
    formatted numbers and the keys of counts, have none of them. *)
Definition int2 (s : str) : option Z :=
  match s with
  | [] => None
  | _ => int2_acc 0 s
  end.

End Py.

(** ** Python dictionaries

    [OrderedDict] and [dict] keep their keys in insertion order; the
    second loop of [_evaluate_statevector_results] iterates in that order.
    A dictionary is an association list with unique keys. *)

Section Dict.

Variables K V : Type.
Variable eqb : K -> K -> bool.

Definition dict := list (K * V).

(** [d.get(k, default)] *)
Fixpoint dict_get (d : dict) (k : K) (default : V) : V :=
  match d with
  | [] => default
  | (k', v) :: d' => if eqb k k' then v else dict_get d' k default
  end.

(** [d[k]]; [None] stands for the [KeyError] of a missing key. *)
Fixpoint dict_getitem (d : dict) (k : K) : option V :=
  match d with
  | [] => None
  | (k', v) :: d' => if eqb k k' then Some v else dict_getitem d' k
  end.

(** [d[k] = v]: overwrites in place, or appends a new key. *)
Fixpoint dict_set (d : dict) (k : K) (v : V) : dict :=
  match d with
  | [] => [(k, v)]
  | (k', v') :: d' =>
      if eqb k k' then (k', v) :: d' else (k', v') :: dict_set d' k v
  end.

(** [d.items()], [d.keys()], [d.values()] *)
Definition items (d : dict) : list (K * V) := d.
Definition keys (d : dict) : list K := map fst d.
Definition values (d : dict) : list V := map snd d.

End Dict.

(** ** [sorted]

    Python's sort is stable; on a list every stable sort returns the same
    list, so insertion sort stands for it. *)

Section Sorted.

Variable A : Type.
Variable leb : A -> A -> bool.

Fixpoint insert_sorted (x : A) (l : list A) : list A :=
  match l with
  | [] => [x]
  | y :: l' => if leb x y then x :: l else y :: insert_sorted x l'
  end.

Fixpoint sorted (l : list A) : list A :=
  match l with
  | [] => []
  | x :: l' => insert_sorted x (sorted l')
  end.

End Sorted.

(** Tuples compare lexicographically. *)
Definition tuple_leb (K V : Type) (cmpK : K -> K -> comparison)
    (cmpV : V -> V -> comparison) (x y : K * V) : bool :=
  match cmpK (fst x) (fst y) with
  | Lt => true
  | Gt => false
  | Eq => match cmpV (snd x) (snd y) with Gt => false | _ => true end
  end.

(** ** Floats as canonical rationals *)

Module Float.

Local Open Scope Qc_scope.

Definition of_int (z : Z) : Qc := Q2Qc (inject_Z z).

Definition eqb (x y : Qc) : bool := Qeq_bool x y.
Definition ltb (x y : Qc) : bool :=
  match Qccompare x y with Lt => true | _ => false end.
Definition leb (x y : Qc) : bool :=
  match Qccompare x y with Gt => false | _ => true end.

(** Round to the nearest integer, ties to even ([np.rint]). *)
Definition rint (x : Qc) : Z :=
  let f := Qfloor x in
  match Qccompare (x - of_int f) (Q2Qc (1 # 2)) with
  | Lt => f
  | Gt => (f + 1)%Z
  | Eq => if Z.even f then f else (f + 1)%Z
  end.

(** [np.round(x, decimals)] for a non-negative number of decimals:
    scale, round to the nearest integer, scale back. *)
Definition np_round (x : Qc) (decimals : nat) : Qc :=
  let scale := of_int (10 ^ Z.of_nat decimals) in
  of_int (rint (x * scale)) / scale.

(** [np.power(x, n)] for a non-negative integer exponent. *)
Definition np_power (x : Qc) (n : nat) : Qc := x ^ n.

Fixpoint np_sum (l : list Qc) : Qc :=
  match l with
  | [] => 0
  | x :: l' => x + np_sum l'
  end.

(** [np.min] and [np.max]; [None] stands for the [ValueError] raised on
    an empty array. *)
Definition np_min (l : list Qc) : option Qc :=
  match l with
  | [] => None
  | x :: l' => Some (fold_left (fun a b => if ltb b a then b else a) l' x)
  end.

Definition np_max (l : list Qc) : option Qc :=
  match l with
  | [] => None
  | x :: l' => Some (fold_left (fun a b => if ltb a b then b else a) l' x)
  end.

(** [np.linspace(start, stop, num, endpoint)] *)
Definition np_linspace (start stop : Qc) (num : nat) (endpoint : bool)
    : list Qc :=
  let div := if endpoint then (num - 1)%nat else num in
  let step := (stop - start) / of_int (Z.of_nat div) in
  map (fun i => start + of_int (Z.of_nat i) * step) (seq 0 num).

End Float.

(** ** Exceptions and results *)

Inductive exn : Type :=
| ValueError
| TypeError
| ZeroDivisionError
| KeyError (key : string)
| AquaError (msg : string).

Inductive result (A : Type) : Type :=
| Ok (a : A)
| Raise (e : exn).

Arguments Ok {A} a.
Arguments Raise {A} e.

(** ** Collaborators that live outside [ae.py] *)

(** [import numpy as np]: the part of numpy that leaves the rationals. *)
Class Numpy : Type := {
  np_pi : Qc;
  np_sin : Qc -> Qc;
  np_sqrt : Qc -> Qc
}.

(** [from qiskit.aqua.utils import (loglik, bisect_max, chi2_quantile,
    normal_quantile, fisher_information, d_logprob)].  [d_logprob] is
    applied by numpy to every entry of the array of values. *)
Class AquaUtils : Type := {
  loglik : Qc -> nat -> list Qc -> list Qc -> Z -> Qc;
  bisect_max : (Qc -> Qc) -> Qc -> Qc -> Qc * Qc;
  chi2_quantile : Qc -> Qc;
  normal_quantile : Qc -> Qc;
  fisher_information : Qc -> nat -> Qc;
  d_logprob : Qc -> Qc -> nat -> Qc
}.

(** The [CircuitFactory] objects handed to the constructor, as far as the
    class uses them. *)
Record CircuitFactory : Type := {
  num_target_qubits : nat;
  value_to_estimation : Qc -> Qc;
  required_ancillas_controlled : nat
}.

(** [self._quantum_instance] together with what executing the circuit on
    it returns: a state vector of complex amplitudes (real and imaginary
    part), or the counts per measured bit string. *)
Inductive QuantumInstance : Type :=
| statevector_simulator (statevector : list (Qc * Qc))
| qasm_simulator (counts : list (string * Z)).

Definition is_statevector (q : QuantumInstance) : bool :=
  match q with
  | statevector_simulator _ => true
  | qasm_simulator _ => false
  end.

(** ** The stored results [self._ret]

    A dictionary from strings to Python values of the shapes the class
    stores. *)

Inductive pyval : Type :=
| PyNone
| PyFloat (x : Qc)
| PyFloats (l : list Qc)
| PyInts (l : list Z)
| PyItems (l : list (Qc * Qc))
| PyYItems (l : list (Z * Qc))
| PyCounts (d : list (string * Z))
| PyStatevector (v : list (Qc * Qc)).

Definition Ret := dict string pyval.

(** ** The object *)

Record AmplitudeEstimation : Type := {
  a_factory : CircuitFactory;
  q_factory : CircuitFactory;
  _m : nat;
  _M : Z;
  _num_ancillas : nat;
  _num_qubits : nat;
  _quantum_instance : QuantumInstance
}.

(** [__init__], followed by the choice of the backend.  The constructor
    first validates its arguments against the schema, which asks for at
    least one evaluation qubit: every object it builds has [1 <= _m]. *)
Definition init (num_eval_qubits : nat) (a_factory q_factory : CircuitFactory)
    (quantum_instance : QuantumInstance) : AmplitudeEstimation :=
  let num_ancillas := required_ancillas_controlled q_factory in
  {| a_factory := a_factory;
     q_factory := q_factory;
     _m := num_eval_qubits;
     _M := 2 ^ Z.of_nat num_eval_qubits;
     _num_ancillas := num_ancillas;
     _num_qubits := num_target_qubits a_factory + num_eval_qubits + num_ancillas;
     _quantum_instance := quantum_instance |}.

(** ** A state and exception monad over [self._ret] *)

Definition M (A : Type) : Type := Ret -> result A * Ret.

Definition ret {A : Type} (a : A) : M A := fun s => (Ok a, s).

Definition raise {A : Type} (e : exn) : M A := fun s => (Raise e, s).

Definition bind {A B : Type} (c : M A) (k : A -> M B) : M B :=
  fun s =>
    match c s with
    | (Ok a, s') => k a s'
    | (Raise e, s') => (Raise e, s')
    end.

Declare Scope ae_scope.
Delimit Scope ae_scope with ae.
Notation "x <- c ;; k" := (bind c (fun x => k))
  (at level 61, c at next level, right associativity) : ae_scope.
Notation "c ;;; k" := (bind c (fun _ => k))
  (at level 61, right associativity) : ae_scope.

Local Open Scope ae_scope.

(** Reading a key of the stored results; [None] when it is missing. *)
Definition lookup (s : Ret) (key : string) : option pyval :=
  dict_getitem String.eqb s key.

(** [self._ret[key]] *)
Definition getitem (key : string) : M pyval :=
  fun s =>
    match lookup s key with
    | Some v => (Ok v, s)
    | None => (Raise (KeyError key), s)
    end.

(** [self._ret[key] = v] *)
Definition setitem (key : string) (v : pyval) : M unit :=
  fun s => (Ok tt, dict_set String.eqb s key v).

(** [return self._ret] *)
Definition return_ret : M Ret := fun s => (Ok s, s).

(** Reading a stored value at the shape the caller goes on to use. *)
Definition as_float (v : pyval) : M Qc :=
  match v with PyFloat x => ret x | _ => raise TypeError end.

Definition as_floats (v : pyval) : M (list Qc) :=
  match v with PyFloats l => ret l | _ => raise TypeError end.

Definition as_counts (v : pyval) : M (list (string * Z)) :=
  match v with PyCounts d => ret d | _ => raise TypeError end.

Fixpoint for_each {A : Type} (l : list A) (body : A -> M unit) : M unit :=
  match l with
  | [] => ret tt
  | x :: l' => body x ;;; for_each l' body
  end.

(** ** [_evaluate_statevector_results] *)

Section Algorithm.

Context {NP : Numpy} {AU : AquaUtils}.

Local Open Scope Qc_scope.

(** [b = "{0:b}".format(i).rjust(self._num_qubits, '0')[::-1]] and
    [y = int(b[:self._m], 2)] *)
Definition evaluation_index (self : AmplitudeEstimation) (i : nat)
    : option Z :=
  let b := Py.reversed (Py.rjust (Py.format_b i) (_num_qubits self) "0"%char) in
  Py.int2 (Py.prefix (_m self) b).

(** The first loop, from index [i] on. *)
Fixpoint y_loop (self : AmplitudeEstimation) (i : nat)
    (probabilities : list Qc) (y_probabilities : dict Z Qc)
    : result (dict Z Qc) :=
  match probabilities with
  | [] => Ok y_probabilities
  | probability :: rest =>
      match evaluation_index self i with
      | None => Raise ValueError
      | Some y =>
          y_loop self (S i) rest
            (dict_set Z.eqb y_probabilities y
               (dict_get Z.eqb y_probabilities y 0 + probability))
      end
  end.

(** [if y >= int(self._M / 2): y = self._M - y] *)
Definition fold_index (self : AmplitudeEstimation) (y : Z) : Z :=
  if (Z.quot (_M self) 2 <=? y)%Z then (_M self - y)%Z else y.

(** [np.power(np.sin(y * np.pi / 2 ** self._m), 2)].  From [m = 1024] on
    Python cannot convert [2 ** m] to a float and raises [OverflowError];
    the rationals have no such limit, and the statements that the
    aggregation returns are made below 1024 evaluation qubits. *)
Definition sin_squared (self : AmplitudeEstimation) (y : Z) : Qc :=
  Float.np_power
    (np_sin (Float.of_int y * np_pi / Float.of_int (2 ^ Z.of_nat (_m self))))
    2.

(** The amplitude key of the statevector path, for an index already
    folded. *)
Definition amplitude (self : AmplitudeEstimation) (y : Z) : Qc :=
  Float.np_round (sin_squared self y) 7.

(** One round of the second loop. *)
Definition a_step (self : AmplitudeEstimation) (a_probabilities : dict Qc Qc)
    (item : Z * Qc) : dict Qc Qc :=
  let (y, probability) := item in
  let y := fold_index self y in
  let a := amplitude self y in
  dict_set Float.eqb a_probabilities a
    (dict_get Float.eqb a_probabilities a 0 + probability).

Definition _evaluate_statevector_results (self : AmplitudeEstimation)
    (probabilities : list Qc) : result (dict Qc Qc * dict Z Qc) :=
  match y_loop self 0 probabilities [] with
  | Raise e => Raise e
  | Ok y_probabilities =>
      let a_probabilities :=
        fold_left (a_step self) (items y_probabilities) [] in
      Ok (a_probabilities, y_probabilities)
  end.

(** ** [_run] *)

(** [np.real(state_vector.conj() * state_vector)[0]] *)
Definition state_probabilities (state_vector : list (Qc * Qc)) : list Qc :=
  map (fun z => fst z * fst z + snd z * snd z) state_vector.

(** [sum(d.values())] on a dictionary of integers. *)
Definition sum_counts (counts : list (string * Z)) : Z :=
  fold_left Z.add (values counts) 0%Z.

(** [y = int(state.replace(' ', '')[:self._m][::-1], 2)] *)
Definition measured_index (self : AmplitudeEstimation) (state : string)
    : option Z :=
  Py.int2
    (Py.reversed
       (Py.prefix (_m self) (Py.strip_spaces (list_ascii_of_string state)))).

(** The loop over the counts of the QASM path. *)
Fixpoint counts_loop (self : AmplitudeEstimation) (shots : Z)
    (counts : list (string * Z)) (y_probabilities : dict Z Qc)
    (a_probabilities : dict Qc Qc) : result (dict Qc Qc * dict Z Qc) :=
  match counts with
  | [] => Ok (a_probabilities, y_probabilities)
  | (state, n) :: rest =>
      match measured_index self state with
      | None => Raise ValueError
      | Some y =>
          if (shots =? 0)%Z then Raise ZeroDivisionError
          else
            let p := Float.of_int n / Float.of_int shots in
            let y_probabilities := dict_set Z.eqb y_probabilities y p in
            let a := sin_squared self y in
            let a_probabilities :=
              dict_set Float.eqb a_probabilities a
                (dict_get Float.eqb a_probabilities a 0 + p) in
            counts_loop self shots rest y_probabilities a_probabilities
      end
  end.

(** The two distributions a run aggregates, before they are turned into
    lists: what the branch of [_run] for the backend at hand computes. *)
Definition aggregate (self : AmplitudeEstimation)
    : result (dict Qc Qc * dict Z Qc) :=
  match _quantum_instance self with
  | statevector_simulator state_vector =>
      _evaluate_statevector_results self (state_probabilities state_vector)
  | qasm_simulator counts =>
      counts_loop self (sum_counts counts) (items counts) [] []
  end.

(** Lines 217 to 223: both lists are first built with the entries above
    [1e-6], then built again from all entries, then sorted. *)
Definition construct_items (a_probabilities : dict Qc Qc)
    (y_probabilities : dict Z Qc) : list (Qc * Qc) * list (Z * Qc) :=
  let a_items :=
    filter (fun ap => Float.ltb (Q2Qc (1 # 1000000)) (snd ap))
      (items a_probabilities) in
  let y_items :=
    filter (fun yp => Float.ltb (Q2Qc (1 # 1000000)) (snd yp))
      (items y_probabilities) in
  let a_items := map (fun ap => (fst ap, snd ap)) (items a_probabilities) in
  let y_items := map (fun yp => (fst yp, snd yp)) (items y_probabilities) in
  let a_items := sorted (tuple_leb Qccompare Qccompare) a_items in
  let y_items := sorted (tuple_leb Z.compare Qccompare) y_items in
  (a_items, y_items).

(** One round of the loop that determines the most likely estimator. *)
Definition most_likely_step (item : Qc * Qc) : M unit :=
  let (val, prob) := item in
  max_probability <- bind (getitem "max_probability") as_float ;;
  if Float.ltb max_probability prob then
    setitem "max_probability" (PyFloat prob) ;;;
    setitem "estimation" (PyFloat val)
  else ret tt.

Definition lift {A : Type} (r : result A) : M A :=
  match r with
  | Ok a => ret a
  | Raise e => raise e
  end.

Definition _run (self : AmplitudeEstimation) : M Ret :=
  ap_yp <-
    match _quantum_instance self with
    | statevector_simulator state_vector =>
        setitem "statevector" (PyStatevector state_vector) ;;;
        lift (_evaluate_statevector_results self
                (state_probabilities state_vector))
    | qasm_simulator counts =>
        setitem "counts" (PyCounts counts) ;;;
        lift (counts_loop self (sum_counts counts) (items counts) [] [])
    end ;;
  let (a_items, y_items) := construct_items (fst ap_yp) (snd ap_yp) in
  setitem "a_items" (PyItems a_items) ;;;
  setitem "y_items" (PyYItems y_items) ;;;
  let mapped_values :=
    map (fun a_item => value_to_estimation (a_factory self) (fst a_item))
      a_items in
  setitem "mapped_values" (PyFloats mapped_values) ;;;
  setitem "values" (PyFloats (map fst a_items)) ;;;
  setitem "y_values" (PyInts (map fst y_items)) ;;;
  let probabilities := map snd a_items in
  setitem "probabilities" (PyFloats probabilities) ;;;
  let mapped_items := combine mapped_values probabilities in
  setitem "mapped_items" (PyItems mapped_items) ;;;
  setitem "estimation" PyNone ;;;
  setitem "max_probability" (PyFloat 0) ;;;
  for_each mapped_items most_likely_step ;;;
  return_ret.

(** ** [mle] *)

(** [shots = 1], or the sum of the stored counts on the QASM path. *)
Definition get_shots (self : AmplitudeEstimation) : M Z :=
  if is_statevector (_quantum_instance self) then ret 1%Z
  else
    counts <- bind (getitem "counts") as_counts ;;
    ret (sum_counts counts).

(** [loglik_wrapper]: the log-likelihood with the stored values, the
    stored probabilities and the number of shots put in. *)
Definition loglik_wrapper (self : AmplitudeEstimation) (ai pi : list Qc)
    (shots : Z) (theta : Qc) : Qc :=
  loglik theta (_m self) ai pi shots.

(** The singularities of the log-likelihood: [sin(pi * x)**2] on
    [linspace(0, 0.5, num=int(M / 2), endpoint=False)], then [1]. *)
Definition drops (self : AmplitudeEstimation) : list Qc :=
  map (fun x => Float.np_power (np_sin (np_pi * x)) 2)
    (Float.np_linspace 0 (Q2Qc (1 # 2))
       (Z.to_nat (Z.quot (_M self) 2)) false)
  ++ [1].

(** [zip(drops[:-1], drops[1:])] *)
Definition brackets (drops : list Qc) : list (Qc * Qc) :=
  combine (removelast drops) (tl drops).

(** One round of the search for the global maximum. *)
Definition mle_step (f : Qc -> Qc) (best : Qc * Qc) (ab : Qc * Qc)
    : Qc * Qc :=
  let (a_opt, loglik_opt) := best in
  let (a, b) := ab in
  let (local, loglik_local) := bisect_max f a b in
  if Float.ltb loglik_opt loglik_local then (local, loglik_local)
  else (a_opt, loglik_opt).

(** The candidate the search starts from: [a_opt = self._ret['estimation']]
    and [loglik_opt = loglik_wrapper(a_opt)].  A stored [None] is no
    argument for the log-likelihood. *)
Definition mle_seed (self : AmplitudeEstimation) (shots : Z) : M (Qc * Qc) :=
  estimation <- getitem "estimation" ;;
  ai <- bind (getitem "values") as_floats ;;
  pi <- bind (getitem "probabilities") as_floats ;;
  a_opt <- as_float estimation ;;
  ret (a_opt, loglik_wrapper self ai pi shots a_opt).

(** [mle(searchmin, diagnostics, a_exact)].  With the diagnostics on and
    an exact value given the code draws plots, and writes them to files
    when asked to; nothing of it reaches the stored results, and that
    branch does nothing here. *)
Definition mle (self : AmplitudeEstimation) (searchmin diagnostics : bool)
    (a_exact : option Qc) : M Ret :=
  shots <- get_shots self ;;
  seed <- mle_seed self shots ;;
  ai <- bind (getitem "values") as_floats ;;
  pi <- bind (getitem "probabilities") as_floats ;;
  let best :=
    fold_left (mle_step (loglik_wrapper self ai pi shots))
      (brackets (drops self)) seed in
  let a_opt := fst best in
  (if diagnostics then
     match a_exact with
     | None =>
         raise (AquaError
           "If diagnostics is set to true, the exact value should be given!")
     | Some _ => ret tt
     end
   else ret tt) ;;;
  setitem "mle" (PyFloat (value_to_estimation (a_factory self) a_opt)) ;;;
  setitem "mle_value" (PyFloat a_opt) ;;;
  return_ret.

(** ** [ci] *)

(** [mle + q * np.array([-1, 1])] *)
Definition symmetric_interval (mle q : Qc) : Qc * Qc :=
  (mle + q * (- (1)), mle + q * 1).

(** [std = np.sqrt(shots * fisher_information(mle, self._m))] *)
Definition fisher_std (self : AmplitudeEstimation) (mle : Qc) (shots : Z)
    : Qc :=
  np_sqrt (Float.of_int shots * fisher_information mle (_m self)).

Definition ci_fisher (self : AmplitudeEstimation) (alpha mle : Qc)
    (shots : Z) : Qc * Qc :=
  let std := fisher_std self mle shots in
  symmetric_interval mle (normal_quantile alpha / std).

(** [np.sum(shots * pi * d_logprob(ai, mle, self._m)**2)] *)
Definition observed_information (self : AmplitudeEstimation) (mle : Qc)
    (ai pi : list Qc) (shots : Z) : Qc :=
  Float.np_sum
    (map (fun pd => Float.of_int shots * fst pd * Float.np_power (snd pd) 2)
       (combine pi (map (fun a => d_logprob a mle (_m self)) ai))).

Definition ci_observed_fisher (self : AmplitudeEstimation) (alpha mle : Qc)
    (ai pi : list Qc) (shots : Z) : Qc * Qc :=
  let std := np_sqrt (observed_information self mle ai pi shots) in
  symmetric_interval mle (normal_quantile alpha / std).

(** The grid points whose log-likelihood reaches the threshold:
    [a_grid[logliks >= (loglik_ref - chi_q / 2)]]. *)
Definition kept_points (f : Qc -> Qc) (a_grid : list Qc)
    (loglik_ref chi_q : Qc) : list Qc :=
  filter (fun theta => Float.leb (loglik_ref - chi_q / Float.of_int 2) (f theta))
    a_grid.

Definition ci_likelihood_ratio (self : AmplitudeEstimation) (alpha mle : Qc)
    (ai pi : list Qc) (shots : Z) : result (Qc * Qc) :=
  let a_grid := Float.np_linspace 0 1 (Z.to_nat 10000) true in
  let f := loglik_wrapper self ai pi shots in
  let loglik_ref := f mle in
  let chi_q := chi2_quantile alpha in
  let selected := kept_points f a_grid loglik_ref chi_q in
  match Float.np_min selected, Float.np_max selected with
  | Some lo, Some hi => Ok (lo, hi)
  | _, _ => Raise ValueError
  end.

Definition ci (self : AmplitudeEstimation) (alpha : Qc) (kind : string)
    : M (Qc * Qc) :=
  shots <- get_shots self ;;
  mle <- bind (getitem "mle_value") as_float ;;
  ai <- bind (getitem "values") as_floats ;;
  pi <- bind (getitem "probabilities") as_floats ;;
  if String.eqb kind "fisher" then
    ret (ci_fisher self alpha mle shots)
  else if String.eqb kind "observed_fisher" then
    ret (ci_observed_fisher self alpha mle ai pi shots)
  else if String.eqb kind "likelihood_ratio" then
    lift (ci_likelihood_ratio self alpha mle ai pi shots)
  else
    raise (AquaError
      ("Confidence interval kind " ++ kind ++ " not implemented.")).

End Algorithm.

(** ** The same code over any arithmetic

    Where the rounding of binary64 decides a statement, the sums of
    [_evaluate_statevector_results] and the interval of the [fisher]
    method are written once more over the operations they use, so that
    one definition runs on the rationals and on binary64. *)

Record Arithmetic : Type := {
  number : Type;
  num_of_int : Z -> number;
  num_add : number -> number -> number;
  num_mul : number -> number -> number;
  num_div : number -> number -> number;
  num_sqrt : number -> number
}.

Section InArithmetic.

Variable A : Arithmetic.

(** [d[k] = d.get(k, 0) + v] *)
Definition accumulate (K : Type) (eqb : K -> K -> bool)
    (d : dict K (number A)) (k : K) (v : number A) : dict K (number A) :=
  dict_set eqb d k (num_add A (dict_get eqb d k (num_of_int A 0)) v).

(** The first loop of [_evaluate_statevector_results], from index [i]
    on. *)
Fixpoint y_loop_in (self : AmplitudeEstimation) (i : nat)
    (probabilities : list (number A)) (y_probabilities : dict Z (number A))
    : result (dict Z (number A)) :=
  match probabilities with
  | [] => Ok y_probabilities
  | probability :: rest =>
      match evaluation_index self i with
      | None => Raise ValueError
      | Some y =>
          y_loop_in self (S i) rest
            (accumulate Z.eqb y_probabilities y probability)
      end
  end.

(** The amplitude key of line 170 is a parameter here: the sums depend
    on which keys are equal, not on their values. *)
Variable K : Type.
Variable keqb : K -> K -> bool.
Variable amplitude_key : AmplitudeEstimation -> Z -> K.

(** One round of the second loop. *)
Definition a_step_in (self : AmplitudeEstimation)
    (a_probabilities : dict K (number A)) (item : Z * number A)
    : dict K (number A) :=
  let (y, probability) := item in
  let y := fold_index self y in
  let a := amplitude_key self y in
  accumulate keqb a_probabilities a probability.

Definition evaluate_statevector_results_in (self : AmplitudeEstimation)
    (probabilities : list (number A))
    : result (dict K (number A) * dict Z (number A)) :=
  match y_loop_in self 0 probabilities [] with
  | Raise e => Raise e
  | Ok y_probabilities =>
      let a_probabilities :=
        fold_left (a_step_in self) (items y_probabilities) [] in
      Ok (a_probabilities, y_probabilities)
  end.

(** [sum(l)]: from [0], one entry after the other. *)
Definition python_sum (l : list (number A)) : number A :=
  fold_left (num_add A) l (num_of_int A 0).

(** [mle + q * np.array([-1, 1])] *)
Definition symmetric_interval_in (mle q : number A) : number A * number A :=
  (num_add A mle (num_mul A q (num_of_int A (-1))),
   num_add A mle (num_mul A q (num_of_int A 1))).

(** The [fisher] branch of [ci], lines 320 and 321, the two helpers it
    calls being arguments. *)
Definition ci_fisher_in (normal_quantile : number A -> number A)
    (fisher_information : number A -> nat -> number A)
    (self : AmplitudeEstimation) (alpha mle : number A) (shots : Z)
    : number A * number A :=
  let std :=
    num_sqrt A (num_mul A (num_of_int A shots)
                  (fisher_information mle (_m self))) in
  symmetric_interval_in mle (num_div A (normal_quantile alpha) std).

End InArithmetic.

(** ** Sample collaborators, to run the model on concrete inputs

    None of this is the code of numpy or of [qiskit.aqua.utils]: the
    trigonometry is a truncated series over the rationals, close to the
    true values by far less than the seven decimals [_evaluate_statevector_results]
    rounds to, and the utilities are small stand-ins of the right types. *)

Module Sample.

Local Open Scope Qc_scope.

Definition pi_approx : Qc :=
  Q2Qc (31415926535897932385 # 10000000000000000000).

(** Rounding down to twenty decimals, as every float operation rounds. *)
Definition chop (x : Qc) : Qc :=
  Float.of_int (Qfloor (x * Float.of_int (10 ^ 20)))
  / Float.of_int (10 ^ 20).

(** [n] terms of the sine series from the term [term] of odd degree [k]. *)
Fixpoint sin_terms (n : nat) (k : Z) (term x2 : Qc) : Qc :=
  match n with
  | O => 0
  | S n' =>
      term
      + sin_terms n' (k + 2)
          (chop (- term * x2 / Float.of_int ((k + 1) * (k + 2)))) x2
  end.

Definition sin_approx (x : Qc) : Qc :=
  let x := chop x in sin_terms 16 1 x (chop (x * x)).

(** Square root to fifteen decimals, by the integer square root. *)
Definition sqrt_approx (x : Qc) : Qc :=
  Float.of_int (Z.sqrt (Qfloor (x * Float.of_int (10 ^ 30))))
  / Float.of_int (10 ^ 15).

Definition numpy : Numpy :=
  {| np_pi := pi_approx; np_sin := sin_approx; np_sqrt := sqrt_approx |}.

(** A concave stand-in for the log-likelihood, the midpoint of the
    bracket for its maximiser, and quantiles that are positive on
    [(0, 1)] and tend to [0] as [alpha] tends to [1]. *)
Definition utils : AquaUtils :=
  {| loglik := fun theta _ ai pi shots =>
       - (Float.of_int shots
          * Float.np_sum
              (map (fun ap => snd ap * (theta - fst ap) * (theta - fst ap))
                 (combine ai pi)));
     bisect_max := fun f a b =>
       let c := (a + b) / Float.of_int 2 in (c, f c);
     chi2_quantile := fun alpha =>
       Float.of_int 2 * (1 - alpha) * (1 - alpha);
     normal_quantile := fun alpha => Float.of_int 2 * (1 - alpha);
     fisher_information := fun _ _ => 1;
     d_logprob := fun a theta _ => a - theta |}.

(** A problem of one target qubit whose estimate is the amplitude in
    problem units [1 + a]; the Q operator needs no ancilla. *)
Definition problem : CircuitFactory :=
  {| num_target_qubits := 1;
     value_to_estimation := fun a => a + 1;
     required_ancillas_controlled := 0 |}.

(** A problem that reports the amplitude itself. *)
Definition plain : CircuitFactory :=
  {| num_target_qubits := 1;
     value_to_estimation := fun a => a;
     required_ancillas_controlled := 0 |}.

End Sample.

(** ** The two arithmetics *)

(** The rationals, with the square root of the numpy at hand. *)
Definition rationals (NP : Numpy) : Arithmetic :=
  {| number := Qc;
     num_of_int := Float.of_int;
     num_add := Qcplus;
     num_mul := Qcmult;
     num_div := Qcdiv;
     num_sqrt := np_sqrt |}.

(** Binary64, the floats of Python and numpy, with the inputs of the
    runs below. *)
Module Binary64.

Local Open Scope float_scope.

Fixpoint of_pos (p : positive) : float :=
  match p with
  | xH => 1
  | xO q => 2 * of_pos q
  | xI q => 2 * of_pos q + 1
  end.

(** [float(z)]; exact for integers below [2 ^ 53] in absolute value. *)
Definition of_int (z : Z) : float :=
  match z with
  | Z0 => 0
  | Zpos p => of_pos p
  | Zneg p => - of_pos p
  end.

Definition arithmetic : Arithmetic :=
  {| number := float;
     num_of_int := of_int;
     num_add := PrimFloat.add;
     num_mul := PrimFloat.mul;
     num_div := PrimFloat.div;
     num_sqrt := PrimFloat.sqrt |}.

(** One evaluation qubit and one target qubit: the aggregation reads
    [_m], [_M] and [_num_qubits] only, and a state vector has four
    entries. *)
Definition self : AmplitudeEstimation :=
  init 1 Sample.plain Sample.plain (statevector_simulator []).

(** The probabilities of a state vector of four amplitudes. *)
Definition probabilities : list float := [0.3; 0.3; 0.3; 0.1].

(** Line 170 for one evaluation qubit: the folded index is [0] or [1],
    and [np.round(np.power(np.sin(y * np.pi / 2), 2), decimals=7)] is
    [0.0] at [0] and [1.0] at [1]. *)
Definition amplitude (self : AmplitudeEstimation) (y : Z) : float :=
  if (y =? 0)%Z then 0 else 1.

(** The stand-ins of [Sample.utils] for the two helpers of the [fisher]
    method. *)
Definition normal_quantile (alpha : float) : float := 2 * (1 - alpha).
Definition fisher_information (mle : float) (m : nat) : float := 1.

(** The maximum likelihood value [peaked3] stores, and a level. *)
Definition mle_value : float := 0.1464466.
Definition alpha : float := 0.05.

End Binary64.

(** ** Concrete runs used by the examples below *)

Module Scenario.

Local Open Scope Qc_scope.

(** A basis state of [n] amplitudes: amplitude one at index [k]. *)
Definition basis_state (n k : nat) : list (Qc * Qc) :=
  map (fun i => if Nat.eqb i k then (1, 0) else (0, 0)) (seq 0 n).

(** Two evaluation qubits and one target qubit, uniform state vector:
    every raw index [0..3] carries mass. *)
Definition uniform2 : AmplitudeEstimation :=
  init 2 Sample.plain Sample.plain
    (statevector_simulator
       (map (fun _ => (Q2Qc (1 # 4), Q2Qc (1 # 4))) (seq 0 8))).

(** Two evaluation qubits measured on the QASM simulator: one shot on
    the bit string of index 1 and one on that of index 3. *)
Definition measured2 : AmplitudeEstimation :=
  init 2 Sample.plain Sample.plain
    (qasm_simulator [("10"%string, 1%Z); ("11"%string, 1%Z)]).

(** One evaluation qubit, all mass on the index with amplitude [1], and
    a problem that reports [1 + a]. *)
Definition shifted1 : AmplitudeEstimation :=
  init 1 Sample.problem Sample.problem
    (statevector_simulator (basis_state 4 1)).

(** Three evaluation qubits, all mass on the raw index [y = 1]. *)
Definition peaked3 : AmplitudeEstimation :=
  init 3 Sample.plain Sample.plain
    (statevector_simulator (basis_state 16 4)).

(** The distributions aggregated for [uniform2]. *)
Definition uniform2_distributions : dict Qc Qc * dict Z Qc :=
  match @aggregate Sample.numpy uniform2 with
  | Ok d => d
  | Raise _ => ([], [])
  end.

(** The stored results of [shifted1] after [_run]. *)
Definition shifted1_ret : Ret := snd (@_run Sample.numpy shifted1 []).

(** The stored results of [peaked3] after [_run] and [mle]. *)
Definition peaked3_ret : Ret :=
  snd (bind (@_run Sample.numpy peaked3)
         (fun _ => @mle Sample.numpy Sample.utils peaked3 true false None)
         []).

(** Reading back a stored number and a stored list of numbers. *)
Definition stored_float (s : Ret) (key : string) : Qc :=
  match lookup s key with
  | Some (PyFloat x) => x
  | _ => 0
  end.

Definition stored_floats (s : Ret) (key : string) : list Qc :=
  match lookup s key with
  | Some (PyFloats l) => l
  | _ => []
  end.

End Scenario.

(** One evaluation qubit and a problem that reports the amplitude itself,
    all mass on the grid point of amplitude [1]: the stored results after
    [_run] and [mle]. *)
Module Certain.

Definition self : AmplitudeEstimation :=
  init 1 Sample.plain Sample.plain
    (statevector_simulator (Scenario.basis_state 4 1)).

Definition stored : Ret :=
  snd (bind (@_run Sample.numpy self)
         (fun _ => @mle Sample.numpy Sample.utils self true false None)
         []).

End Certain.

(** Two evaluation qubits, uniform state vector: the stored results
    after [_run] and [mle]. *)
Module Spread.

Definition stored : Ret :=
  snd (bind (@_run Sample.numpy Scenario.uniform2)
         (fun _ =>
            @mle Sample.numpy Sample.utils Scenario.uniform2 true false None)
         []).

End Spread.

(** ** Predicates used in the statements *)

(** A string of binary digits. *)
Definition binary (s : Py.str) : Prop :=
  Forall (fun c => c = "0"%char \/ c = "1"%char) s.

(** What a loop that accumulates the [events] in order has added under
    the key [k]. *)
Definition contributions (K V : Type) (eqb : K -> K -> bool)
    (events : list (K * V)) (k : K) : list V :=
  map snd (filter (fun e => eqb k (fst e)) events).

(** The entries of the grid distribution under the amplitude keys of
    their folded indices, in the order of the second loop. *)
Definition amplitude_events (K V : Type) (amplitude_key : Z -> K)
    (self : AmplitudeEstimation) (y_probabilities : dict Z V)
    : list (K * V) :=
  map (fun yp => (amplitude_key (fold_index self (fst yp)), snd yp))
    (items y_probabilities).

(** The measured strings of a dictionary of counts are made of binary
    digits and blanks, as the keys of the counts of a backend are. *)
Definition binary_states (counts : list (string * Z)) : Prop :=
  Forall (fun sn => binary (Py.strip_spaces (list_ascii_of_string (fst sn))))
    counts.

(** A computation that leaves the stored results as they are, whether it
    returns or raises. *)
Definition reads_only {A : Type} (c : M A) : Prop :=
  forall s : Ret, snd (c s) = s.

(** What [ci] reads before it looks at the method name: the number of
    shots, the stored maximum likelihood value, and the stored values and
    probabilities. *)
Definition ci_ready (self : AmplitudeEstimation) (s : Ret) (shots : Z)
    (mle : Qc) (ai pi : list Qc) : Prop :=
  fst (get_shots self s) = Ok shots
  /\ lookup s "mle_value" = Some (PyFloat mle)
  /\ lookup s "values" = Some (PyFloats ai)
  /\ lookup s "probabilities" = Some (PyFloats pi).

(** The [m] low bits of [i], least significant bit first, read as a binary
    number whose first digit is the most significant one. *)
Fixpoint reversed_bits (m : nat) (i : N) : Z :=
  match m with
  | O => 0
  | S m' => Z.of_N (i mod 2) * 2 ^ Z.of_nat m' + reversed_bits m' (i / 2)
  end.

(** What [mle] reads before the search: the number of shots, the stored
    coarse estimate, and the stored values and probabilities. *)
Definition mle_ready (self : AmplitudeEstimation) (s : Ret) (shots : Z)
    (estimation : Qc) (ai pi : list Qc) : Prop :=
  fst (get_shots self s) = Ok shots
  /\ lookup s "estimation" = Some (PyFloat estimation)
  /\ lookup s "values" = Some (PyFloats ai)
  /\ lookup s "probabilities" = Some (PyFloats pi).

(** A result of the [likelihood_ratio] method that is well formed: an
    interval whose ends are grid points [i / 9999] with
    [0 <= lo <= hi <= 1], or the [ValueError] of an empty selection. *)
Definition unit_grid_interval (r : result (Qc * Qc)) : Prop :=
  match r with
  | Ok (lo, hi) =>
      (0 <= lo)%Qc /\ (lo <= hi)%Qc /\ (hi <= 1)%Qc
      /\ (exists i, (0 <= i <= 9999)%Z
                    /\ lo = (Float.of_int i / Float.of_int 9999)%Qc)
      /\ (exists j, (0 <= j <= 9999)%Z
                    /\ hi = (Float.of_int j / Float.of_int 9999)%Qc)
  | Raise e => e = ValueError
  end.

(** If the first result is an interval, so is the second, and it contains
    the first. *)
Definition widens_to (narrow wide : result (Qc * Qc)) : Prop :=
  match narrow with
  | Ok (lo1, hi1) =>
      exists lo2 hi2,
        wide = Ok (lo2, hi2) /\ (lo2 <= lo1)%Qc /\ (hi1 <= hi2)%Qc
  | Raise _ => True
  end.

(** * Properties *)

(** ** Binary strings and the evaluation index *)

Section PyFacts.

Local Open Scope char_scope.
Local Open Scope Z_scope.

Lemma binary_app (s t : Py.str) : binary s -> binary t -> binary (s ++ t).
Proof. intros Hs Ht. apply Forall_app. split; assumption. Qed.

Lemma binary_digit (c : ascii) : c = "0" \/ c = "1" -> binary [c].
Proof. intro H. constructor; [assumption | constructor]. Qed.

Lemma binary_pos_digits (p : positive) : binary (Py.pos_digits p).
Proof.
  induction p; simpl.
  - apply binary_app; [assumption | apply binary_digit; auto].
  - apply binary_app; [assumption | apply binary_digit; auto].
  - apply binary_digit; auto.
Qed.

Lemma pos_digits_nonempty (p : positive) : Py.pos_digits p <> [].
Proof.
  destruct p; simpl; try discriminate;
    intro H; apply app_eq_nil in H; destruct H; discriminate.
Qed.

Lemma binary_format_b (i : nat) : binary (Py.format_b i).
Proof.
  unfold Py.format_b. destruct (N.of_nat i).
  - apply binary_digit; auto.
  - apply binary_pos_digits.
Qed.

Lemma format_b_nonempty (i : nat) : Py.format_b i <> [].
Proof.
  unfold Py.format_b. destruct (N.of_nat i);
    [discriminate | apply pos_digits_nonempty].
Qed.

Lemma binary_rjust (s : Py.str) (w : nat) : binary s -> binary (Py.rjust s w "0").
Proof.
  intro Hs. unfold Py.rjust. apply binary_app; [| assumption].
  apply Forall_forall. intros c Hc. apply repeat_spec in Hc. auto.
Qed.

Lemma rjust_nonempty (s : Py.str) (w : nat) (c : ascii) :
  s <> [] -> Py.rjust s w c <> [].
Proof.
  intros Hs H. unfold Py.rjust in H. apply app_eq_nil in H. tauto.
Qed.

Lemma binary_reversed (s : Py.str) : binary s -> binary (Py.reversed s).
Proof. intro Hs. apply Forall_rev. assumption. Qed.

Lemma binary_prefix (n : nat) (s : Py.str) : binary s -> binary (Py.prefix n s).
Proof.
  intro Hs. unfold binary, Py.prefix in *.
  rewrite <- (firstn_skipn n s) in Hs. apply Forall_app in Hs. tauto.
Qed.

Lemma binary_strip_prefix_rev (n : nat) (s : Py.str) :
  binary s -> binary (Py.reversed (Py.prefix n s)).
Proof. intro Hs. apply binary_reversed, binary_prefix, Hs. Qed.

(** Reading [s] after the digits accumulated in [acc] shifts [acc] left
    by the length of [s] and adds a number below [2 ^ length s]. *)
Lemma int2_acc_binary (s : Py.str) :
  binary s ->
  forall acc, exists r,
    Py.int2_acc acc s = Some (acc * 2 ^ Z.of_nat (List.length s) + r)
    /\ 0 <= r < 2 ^ Z.of_nat (List.length s).
Proof.
  induction 1 as [| c s Hc Hs IH]; intro acc.
  - exists 0. simpl. split; [f_equal; lia | lia].
  - assert (Hd : exists d, Py.digit2 c = Some d /\ 0 <= d <= 1).
    { destruct Hc as [-> | ->]; [exists 0 | exists 1];
        (split; [reflexivity | lia]). }
    destruct Hd as (d & Hd & Hrange).
    destruct (IH (2 * acc + d)) as (r & Hr & Hb).
    exists (d * 2 ^ Z.of_nat (List.length s) + r).
    cbn [Py.int2_acc List.length]. rewrite Hd, Hr.
    rewrite Nat2Z.inj_succ, Z.pow_succ_r by lia.
    split; [f_equal; ring | nia].
Qed.

Lemma int2_binary (s : Py.str) :
  binary s -> s <> [] ->
  exists y, Py.int2 s = Some y /\ 0 <= y < 2 ^ Z.of_nat (List.length s).
Proof.
  intros Hs Hne. destruct (int2_acc_binary Hs 0) as (r & Hr & Hb).
  exists r. split; [| assumption].
  destruct s; [congruence |].
  unfold Py.int2. rewrite Hr. rewrite Z.mul_0_l. reflexivity.
Qed.

End PyFacts.

(** ** Floats *)

Section FloatFacts.

Local Open Scope Qc_scope.

Lemma ltb_lt (x y : Qc) : Float.ltb x y = true <-> x < y.
Proof.
  unfold Float.ltb. rewrite Qclt_alt.
  destruct (Qccompare x y); split; congruence.
Qed.

Lemma leb_le (x y : Qc) : Float.leb x y = true <-> x <= y.
Proof.
  unfold Float.leb. rewrite Qcle_alt.
  destruct (Qccompare x y); split; congruence.
Qed.

Lemma eqb_eq (x y : Qc) : Float.eqb x y = true <-> x = y.
Proof.
  unfold Float.eqb. rewrite Qeq_bool_iff. split.
  - apply Qc_is_canon.
  - intros ->. reflexivity.
Qed.

End FloatFacts.

(** ** Dictionaries *)

Section DictFacts.

Variables K V : Type.
Variable eqb : K -> K -> bool.

Lemma keys_dict_set (d : dict K V) (k : K) (v : V) (k' : K) :
  In k' (keys (dict_set eqb d k v)) -> k' = k \/ In k' (keys d).
Proof.
  unfold keys. induction d as [| [k0 v0] d IH]; simpl.
  - intros [<- | []]. now left.
  - destruct (eqb k k0); simpl.
    + intros [<- | H]; auto.
    + intros [<- | H]; auto. destruct (IH H); auto.
Qed.

Lemma keys_dict_set_old (d : dict K V) (k : K) (v : V) (k' : K) :
  In k' (keys d) -> In k' (keys (dict_set eqb d k v)).
Proof.
  unfold keys. induction d as [| [k0 v0] d IH]; simpl; [tauto |].
  destruct (eqb k k0); simpl; intros [<- | H]; auto.
Qed.

Hypothesis eqb_true : forall x y, x = y -> eqb x y = true.

Lemma keys_dict_set_nodup (d : dict K V) (k : K) (v : V) :
  NoDup (keys d) -> NoDup (keys (dict_set eqb d k v)).
Proof.
  unfold keys. induction d as [| [k0 v0] d IH]; simpl; intro Hnd.
  - constructor; [tauto | constructor].
  - inversion Hnd as [| ? ? Hnotin Hnd']; subst.
    destruct (eqb k k0) eqn:E; simpl.
    + constructor; assumption.
    + constructor; [| auto].
      intro Hin. apply (keys_dict_set d k v) in Hin.
      destruct Hin as [-> | Hin]; [| contradiction].
      rewrite eqb_true in E by reflexivity. discriminate.
Qed.

End DictFacts.

Section AccumulateFacts.

Variables K V : Type.
Variable eqb : K -> K -> bool.

(** The test of a dictionary on its keys, [==] after hashing, is
    symmetric and transitive; on floats it is not reflexive at [nan]. *)
Hypothesis eqb_sym : forall x y, eqb x y = true -> eqb y x = true.
Hypothesis eqb_trans :
  forall x y z, eqb x y = true -> eqb y z = true -> eqb x z = true.

Lemma eqb_same_class (k k1 : K) :
  eqb k k1 = true -> forall k0, eqb k k0 = eqb k1 k0.
Proof.
  intros H k0. destruct (eqb k1 k0) eqn:E.
  - now apply eqb_trans with k1.
  - destruct (eqb k k0) eqn:E'; [| reflexivity].
    rewrite <- E. symmetry. apply eqb_trans with k; [| exact E'].
    now apply eqb_sym.
Qed.

Lemma dict_get_same_class (d : dict K V) (k k1 : K) (default : V) :
  eqb k k1 = true -> dict_get eqb d k default = dict_get eqb d k1 default.
Proof.
  intro H. induction d as [| [k0 v0] d IH]; simpl; [reflexivity |].
  now rewrite (eqb_same_class H k0), IH.
Qed.

Lemma dict_get_set (d : dict K V) (k k' : K) (v default : V) :
  dict_get eqb (dict_set eqb d k v) k' default
  = if eqb k' k then v else dict_get eqb d k' default.
Proof.
  induction d as [| [k0 v0] d IH]; simpl.
  - reflexivity.
  - destruct (eqb k k0) eqn:E; simpl.
    + destruct (eqb k' k) eqn:E1.
      * now rewrite (eqb_trans E1 E).
      * destruct (eqb k' k0) eqn:E0; [| reflexivity].
        rewrite (eqb_trans E0 (eqb_sym E)) in E1. discriminate.
    + rewrite IH. destruct (eqb k' k0) eqn:E0; [| reflexivity].
      destruct (eqb k' k) eqn:E1; [| reflexivity].
      rewrite (eqb_trans (eqb_sym E1) E0) in E. discriminate.
Qed.

End AccumulateFacts.

Section KeyFacts.

Variables K V : Type.
Variable eqb : K -> K -> bool.
Hypothesis eqb_spec : forall x y, eqb x y = true <-> x = y.

Lemma eqb_spec_sym (x y : K) : eqb x y = true -> eqb y x = true.
Proof. intro H. apply eqb_spec. symmetry. now apply eqb_spec. Qed.

Lemma eqb_spec_trans (x y z : K) :
  eqb x y = true -> eqb y z = true -> eqb x z = true.
Proof.
  intros H1 H2. apply eqb_spec in H1, H2. apply eqb_spec. congruence.
Qed.

Lemma keys_dict_set_new (d : dict K V) (k : K) (v : V) :
  In k (keys (dict_set eqb d k v)).
Proof.
  unfold keys. induction d as [| [k0 v0] d IH]; simpl.
  - now left.
  - destruct (eqb k k0) eqn:E; simpl.
    + apply eqb_spec in E. now left.
    + now right.
Qed.

End KeyFacts.

(** ** Accumulation in any arithmetic *)

Section ArithmeticFacts.

Variable A : Arithmetic.
Variable K : Type.
Variable eqb : K -> K -> bool.

Section Values.

Hypothesis eqb_sym : forall x y, eqb x y = true -> eqb y x = true.
Hypothesis eqb_trans :
  forall x y z, eqb x y = true -> eqb y z = true -> eqb x z = true.

(** After a loop that accumulates the events in order, the value under a
    key is what the dictionary held before, plus the events of that key
    one after the other. *)
Lemma accumulate_events_get (events : list (K * number A)) :
  forall (d : dict K (number A)) (k : K),
    dict_get eqb
      (fold_left (fun d e => accumulate A eqb d (fst e) (snd e)) events d)
      k (num_of_int A 0)
    = fold_left (num_add A) (contributions eqb events k)
        (dict_get eqb d k (num_of_int A 0)).
Proof.
  induction events as [| [k1 v1] events IH]; intros d k; simpl.
  - reflexivity.
  - rewrite IH. unfold accumulate.
    rewrite (dict_get_set eqb eqb_sym eqb_trans).
    unfold contributions. simpl.
    destruct (eqb k k1) eqn:E; simpl; [| reflexivity].
    now rewrite (@dict_get_same_class _ _ eqb eqb_sym eqb_trans d k k1
                   (num_of_int A 0) E).
Qed.

End Values.

Section Keys.

Hypothesis eqb_spec : forall x y, eqb x y = true <-> x = y.

Lemma accumulate_events_keys (events : list (K * number A)) :
  forall (d : dict K (number A)) (k : K),
    In k (keys (fold_left (fun d e => accumulate A eqb d (fst e) (snd e))
                  events d))
    <-> In k (keys d) \/ In k (map fst events).
Proof.
  induction events as [| [k1 v1] events IH]; intros d k; simpl.
  - tauto.
  - rewrite IH. unfold accumulate. split.
    + intros [H | H]; [| tauto].
      apply keys_dict_set in H. destruct H as [-> | H]; tauto.
    + intros [H | [<- | H]]; [| | tauto].
      * left. now apply keys_dict_set_old.
      * left. now apply keys_dict_set_new.
Qed.

End Keys.

Section Laws.

Hypothesis add_assoc :
  forall x y z, num_add A x (num_add A y z) = num_add A (num_add A x y) z.
Hypothesis add_comm : forall x y, num_add A x y = num_add A y x.
Hypothesis add_zero : forall x, num_add A (num_of_int A 0) x = x.

Lemma fold_add_from (l : list (number A)) :
  forall x, fold_left (num_add A) l x = num_add A x (python_sum A l).
Proof.
  unfold python_sum. induction l as [| v l IH]; intro x; simpl.
  - now rewrite add_comm, add_zero.
  - rewrite (IH (num_add A x v)), (IH (num_add A (num_of_int A 0) v)),
      add_zero.
    now rewrite add_assoc.
Qed.

Lemma python_sum_cons (v : number A) (l : list (number A)) :
  python_sum A (v :: l) = num_add A v (python_sum A l).
Proof.
  unfold python_sum at 1. simpl. now rewrite fold_add_from, add_zero.
Qed.

(** Accumulating [p] under a key adds [p] to the total, whether the key
    is new or already present. *)
Lemma python_sum_accumulate (d : dict K (number A)) (k : K)
    (p : number A) :
  python_sum A (values (accumulate A eqb d k p))
  = num_add A (python_sum A (values d)) p.
Proof.
  unfold accumulate, values. induction d as [| [k0 v0] d IH]; simpl.
  - rewrite python_sum_cons. unfold python_sum. simpl.
    now rewrite (add_comm (num_add A (num_of_int A 0) p)), add_zero.
  - destruct (eqb k k0); simpl.
    + rewrite !python_sum_cons.
      rewrite <- !add_assoc. f_equal. apply add_comm.
    + rewrite !python_sum_cons, IH. apply add_assoc.
Qed.

Lemma python_sum_events (events : list (K * number A)) :
  forall d,
    python_sum A
      (values (fold_left (fun d e => accumulate A eqb d (fst e) (snd e))
                 events d))
    = num_add A (python_sum A (values d)) (python_sum A (map snd events)).
Proof.
  induction events as [| [k v] events IH]; intro d; simpl.
  - unfold python_sum at 3. simpl. now rewrite add_comm, add_zero.
  - rewrite IH, python_sum_accumulate, python_sum_cons. simpl.
    now rewrite add_assoc.
Qed.

End Laws.

End ArithmeticFacts.

(** ** Sorting *)

Section SortedFacts.

Variable A : Type.
Variable leb : A -> A -> bool.
Hypothesis leb_total : forall x y, leb x y = true \/ leb y x = true.

Lemma insert_sorted_perm (x : A) (l : list A) :
  Permutation (x :: l) (insert_sorted leb x l).
Proof.
  induction l as [| y l IH]; simpl; [reflexivity |].
  destruct (leb x y); [reflexivity |].
  rewrite perm_swap. now constructor.
Qed.

Lemma sorted_perm (l : list A) : Permutation l (sorted leb l).
Proof.
  induction l as [| x l IH]; simpl; [reflexivity |].
  rewrite <- insert_sorted_perm. now constructor.
Qed.

Lemma insert_sorted_locally (x : A) (l : list A) :
  Sorted (fun a b => leb a b = true) l ->
  Sorted (fun a b => leb a b = true) (insert_sorted leb x l).
Proof.
  induction 1 as [| y l Hs IH Hhd]; simpl.
  - repeat constructor.
  - destruct (leb x y) eqn:E.
    + constructor; [constructor; assumption | constructor; assumption].
    + constructor; [assumption |].
      destruct l as [| z l]; simpl in *.
      * constructor. destruct (leb_total x y); congruence.
      * destruct (leb x z).
        -- constructor. destruct (leb_total x y); congruence.
        -- inversion Hhd; subst. constructor. assumption.
Qed.

Lemma sorted_locally (l : list A) :
  Sorted (fun a b => leb a b = true) (sorted leb l).
Proof.
  induction l as [| x l IH]; simpl;
    [constructor | now apply insert_sorted_locally].
Qed.

End SortedFacts.

(** ** Aggregation of a state vector *)

Section Aggregation.

Context {NP : Numpy}.

Local Open Scope Qc_scope.

Lemma prefix_nonempty (n : nat) (s : Py.str) :
  (1 <= n)%nat -> s <> [] -> Py.prefix n s <> [].
Proof.
  intros Hn Hs. destruct n; [lia |]. destruct s; [congruence |].
  simpl. discriminate.
Qed.

(** With at least one evaluation qubit every index of the state vector
    yields a grid index below [2 ^ m]. *)
Lemma evaluation_index_range (self : AmplitudeEstimation) (i : nat) :
  (1 <= _m self)%nat ->
  exists y, evaluation_index self i = Some y
            /\ (0 <= y < 2 ^ Z.of_nat (_m self))%Z.
Proof.
  intro Hm. unfold evaluation_index.
  set (b := Py.reversed (Py.rjust (Py.format_b i) (_num_qubits self) "0"%char)).
  assert (Hb : binary b)
    by (apply binary_reversed, binary_rjust, binary_format_b).
  assert (Hne : b <> []).
  { unfold b, Py.reversed. intro H.
    apply (f_equal (@rev ascii)) in H. rewrite rev_involutive in H.
    simpl in H. revert H. apply rjust_nonempty, format_b_nonempty. }
  destruct (int2_binary (binary_prefix (_m self) Hb)
              (prefix_nonempty Hm Hne)) as (y & Hy & Hr).
  exists y. split; [assumption |].
  split; [lia |]. eapply Z.lt_le_trans; [apply Hr |].
  apply Z.pow_le_mono_r; [lia |].
  unfold Py.prefix. pose proof (firstn_le_length (_m self) b). lia.
Qed.

Lemma y_loop_total (self : AmplitudeEstimation) (probabilities : list Qc) :
  (1 <= _m self)%nat ->
  forall i d, exists d', y_loop self i probabilities d = Ok d'.
Proof.
  intro Hm. induction probabilities as [| p rest IH]; intros i d; simpl.
  - eauto.
  - destruct (evaluation_index_range self i Hm) as (y & -> & _). apply IH.
Qed.

Lemma y_loop_keys (self : AmplitudeEstimation) (probabilities : list Qc) :
  (1 <= _m self)%nat ->
  forall i d d',
    y_loop self i probabilities d = Ok d' ->
    forall y, In y (keys d') ->
      In y (keys d) \/ (0 <= y < 2 ^ Z.of_nat (_m self))%Z.
Proof.
  intro Hm. induction probabilities as [| p rest IH]; intros i d d'; simpl.
  - intros [= <-]. auto.
  - destruct (evaluation_index_range self i Hm) as (y0 & -> & Hr).
    intros H y Hy. destruct (IH _ _ _ H y Hy) as [Hin | Hin]; [| auto].
    apply keys_dict_set in Hin. destruct Hin as [-> | Hin]; auto.
Qed.

Lemma y_loop_nodup (self : AmplitudeEstimation) (probabilities : list Qc) :
  forall i d d',
    y_loop self i probabilities d = Ok d' ->
    NoDup (keys d) -> NoDup (keys d').
Proof.
  induction probabilities as [| p rest IH]; intros i d d'; simpl.
  - intros [= <-]. auto.
  - destruct (evaluation_index self i) as [y |]; [| discriminate].
    intros H Hnd. apply (IH _ _ _ H).
    apply keys_dict_set_nodup; [| assumption].
    intros x ? <-. apply Z.eqb_refl.
Qed.

Lemma a_loop_keys (self : AmplitudeEstimation) (its : list (Z * Qc)) :
  forall d a,
    In a (keys (fold_left (a_step self) its d)) ->
    In a (keys d)
    \/ exists y, In y (keys its) /\ a = amplitude self (fold_index self y).
Proof.
  induction its as [| [y p] its IH]; intros d a; simpl.
  - auto.
  - intro H. destruct (IH _ _ H) as [Hin | (y' & Hy' & ->)].
    + unfold a_step in Hin. apply keys_dict_set in Hin.
      destruct Hin as [-> | Hin]; [right | auto].
      exists y. auto.
    + right. exists y'. auto.
Qed.

Lemma a_loop_nodup (self : AmplitudeEstimation) (its : list (Z * Qc)) :
  forall d, NoDup (keys d) -> NoDup (keys (fold_left (a_step self) its d)).
Proof.
  induction its as [| [y p] its IH]; intros d Hnd; simpl; [assumption |].
  apply IH. unfold a_step. apply keys_dict_set_nodup; [| assumption].
  intros x ? <-. now apply eqb_eq.
Qed.

(** The fold of an index of the grid lands in the lower half. *)
Lemma fold_index_range (m : nat) (a_f q_f : CircuitFactory)
    (qi : QuantumInstance) (y : Z) :
  (1 <= m)%nat ->
  (0 <= y < 2 ^ Z.of_nat m)%Z ->
  (0 <= fold_index (init m a_f q_f qi) y <= _M (init m a_f q_f qi) / 2)%Z.
Proof.
  intros Hm Hy. unfold fold_index. simpl.
  replace (Z.of_nat m) with (Z.succ (Z.of_nat (m - 1))) in * by lia.
  rewrite Z.pow_succ_r in * by lia.
  set (h := (2 ^ Z.of_nat (m - 1))%Z) in *.
  assert (Hh : (0 < h)%Z) by (apply Z.pow_pos_nonneg; lia).
  rewrite Z.quot_div_nonneg by lia.
  replace (2 * h)%Z with (h * 2)%Z by ring. rewrite Z.div_mul by lia.
  destruct (Z.leb_spec h y); lia.
Qed.

End Aggregation.

(** ** The loops as accumulations *)

Section GridLoop.

Variable A : Arithmetic.

(** The first loop accumulates, in order, every probability under the
    grid index of its position. *)
Lemma y_loop_in_events (self : AmplitudeEstimation)
    (probabilities : list (number A)) :
  forall i d d',
    y_loop_in A self i probabilities d = Ok d' ->
    exists ys,
      map (evaluation_index self) (seq i (List.length probabilities))
      = map Some ys
      /\ d' = fold_left (fun d e => accumulate A Z.eqb d (fst e) (snd e))
                (combine ys probabilities) d.
Proof.
  induction probabilities as [| p rest IH]; intros i d d'; simpl.
  - intros [= <-]. exists []. auto.
  - destruct (evaluation_index self i) as [y |]; [| discriminate].
    intro H. destruct (IH _ _ _ H) as (ys & Hys & Hd).
    exists (y :: ys). simpl. rewrite Hys. auto.
Qed.

(** The second loop accumulates, in order, every entry of the grid
    distribution under the amplitude key of its folded index. *)
Lemma a_loop_in_events (K : Type) (keqb : K -> K -> bool)
    (amplitude_key : AmplitudeEstimation -> Z -> K)
    (self : AmplitudeEstimation) (its : list (Z * number A)) :
  forall d,
    fold_left (a_step_in A keqb amplitude_key self) its d
    = fold_left (fun d e => accumulate A keqb d (fst e) (snd e))
        (amplitude_events (amplitude_key self) self its) d.
Proof.
  unfold amplitude_events, items.
  induction its as [| [y p] its IH]; intro d; simpl; [reflexivity |].
  apply IH.
Qed.

Lemma combine_snd (X Y : Type) (xs : list X) (ys : list Y) :
  List.length xs = List.length ys -> map snd (combine xs ys) = ys.
Proof.
  revert ys. induction xs as [| x xs IH]; intros [| y ys]; simpl;
    try discriminate; [reflexivity |].
  intros [= H]. now rewrite IH.
Qed.

Lemma combine_fst (X Y : Type) (xs : list X) (ys : list Y) :
  List.length xs = List.length ys -> map fst (combine xs ys) = xs.
Proof.
  revert ys. induction xs as [| x xs IH]; intros [| y ys]; simpl;
    try discriminate; [reflexivity |].
  intros [= H]. now rewrite IH.
Qed.

End GridLoop.

(** ** The rationals are one instance *)

Section OnRationals.

Context {NP : Numpy} {AU : AquaUtils}.

Local Open Scope Qc_scope.

Lemma y_loop_rationals (self : AmplitudeEstimation)
    (probabilities : list Qc) :
  forall i d,
    y_loop_in (rationals NP) self i probabilities d
    = y_loop self i probabilities d.
Proof.
  induction probabilities as [| p rest IH]; intros i d; simpl;
    [reflexivity |].
  destruct (evaluation_index self i); [apply IH | reflexivity].
Qed.

Lemma evaluate_statevector_results_rationals (self : AmplitudeEstimation)
    (probabilities : list Qc) :
  evaluate_statevector_results_in (rationals NP) Float.eqb amplitude
    self probabilities
  = _evaluate_statevector_results self probabilities.
Proof.
  unfold evaluate_statevector_results_in, _evaluate_statevector_results.
  pose proof (y_loop_rationals self probabilities 0%nat []) as H.
  cbn [number rationals] in *. rewrite H.
  destruct (y_loop self 0 probabilities []); reflexivity.
Qed.

Lemma a_loop_rationals (self : AmplitudeEstimation) (its : list (Z * Qc))
    (d : dict Qc Qc) :
  fold_left (a_step self) its d
  = fold_left
      (fun d e => accumulate (rationals NP) Float.eqb d (fst e) (snd e))
      (amplitude_events (amplitude self) self its) d.
Proof.
  exact (@a_loop_in_events (rationals NP) Qc Float.eqb amplitude self its d).
Qed.

Lemma symmetric_interval_rationals (mle q : Qc) :
  symmetric_interval_in (rationals NP) mle q = symmetric_interval mle q.
Proof.
  unfold symmetric_interval_in, symmetric_interval. simpl.
  f_equal; f_equal; f_equal; apply Qc_is_canon; reflexivity.
Qed.

Lemma ci_fisher_rationals (self : AmplitudeEstimation) (alpha mle : Qc)
    (shots : Z) :
  ci_fisher_in (rationals NP) normal_quantile fisher_information
    self alpha mle shots
  = ci_fisher self alpha mle shots.
Proof.
  unfold ci_fisher_in, ci_fisher, fisher_std.
  apply symmetric_interval_rationals.
Qed.

End OnRationals.

(** ** Where the probability mass goes *)

Section MassAccounting.

Variable A : Arithmetic.
Variable K : Type.
Variable keqb : K -> K -> bool.
Variable amplitude_key : AmplitudeEstimation -> Z -> K.

(** C9 (as the code has it).  Whenever the aggregation returns, in any
    arithmetic and for any symmetric and transitive test on the amplitude
    keys: the value of the grid distribution at [y] is the sum, in
    the order of the input, of the probabilities at the positions whose
    grid index is [y], every position having one grid index; the value
    of the amplitude distribution at [a] is the sum, in the order of the
    grid distribution, of its values at the indices whose folded
    amplitude is [a].  When the addition is associative and commutative
    with neutral [0], as on the rationals, both distributions sum to the
    sum of the input. *)
Theorem statevector_mass_accounting (self : AmplitudeEstimation)
    (probabilities : list (number A))
    (a_probabilities : dict K (number A))
    (y_probabilities : dict Z (number A)) :
  (forall a b, keqb a b = true -> keqb b a = true) ->
  (forall a b c, keqb a b = true -> keqb b c = true -> keqb a c = true) ->
  evaluate_statevector_results_in A keqb amplitude_key self probabilities
  = Ok (a_probabilities, y_probabilities) ->
  (exists ys,
      map (evaluation_index self) (seq 0 (List.length probabilities))
      = map Some ys
      /\ forall y,
           dict_get Z.eqb y_probabilities y (num_of_int A 0)
           = python_sum A (contributions Z.eqb (combine ys probabilities) y))
  /\ (forall a,
        dict_get keqb a_probabilities a (num_of_int A 0)
        = python_sum A
            (contributions keqb
               (amplitude_events (amplitude_key self) self y_probabilities)
               a))
  /\ ((forall x y z,
          num_add A x (num_add A y z) = num_add A (num_add A x y) z) ->
      (forall x y, num_add A x y = num_add A y x) ->
      (forall x, num_add A (num_of_int A 0) x = x) ->
      python_sum A (values y_probabilities) = python_sum A probabilities
      /\ python_sum A (values a_probabilities) = python_sum A probabilities).
Proof.
  intros Hsym Htrans. unfold evaluate_statevector_results_in.
  destruct (y_loop_in A self 0 probabilities []) as [d |] eqn:E;
    [| discriminate].
  intros [= <- <-].
  destruct (y_loop_in_events _ _ _ _ _ E) as (ys & Hys & Hd).
  assert (Hlen : List.length ys = List.length probabilities).
  { apply (f_equal (@List.length _)) in Hys.
    now rewrite !length_map, length_seq in Hys. }
  split; [| split].
  - exists ys. split; [exact Hys |]. intro y. rewrite Hd.
    rewrite (accumulate_events_get A Z.eqb
               (eqb_spec_sym Z.eqb Z.eqb_eq) (eqb_spec_trans Z.eqb Z.eqb_eq)).
    reflexivity.
  - intro a. rewrite a_loop_in_events.
    rewrite (accumulate_events_get A keqb Hsym Htrans). reflexivity.
  - intros Hassoc Hcomm Hzero.
    assert (Hy : python_sum A (values d) = python_sum A probabilities).
    { rewrite Hd, (python_sum_events A Z.eqb Hassoc Hcomm Hzero).
      rewrite combine_snd by exact Hlen. apply Hzero. }
    split; [exact Hy |].
    rewrite a_loop_in_events,
      (python_sum_events A keqb Hassoc Hcomm Hzero).
    unfold amplitude_events. rewrite map_map. cbn [snd].
    change (python_sum A (values [])) with (num_of_int A 0).
    rewrite Hzero. exact Hy.
Qed.

End MassAccounting.

(** A run of C9 as amended, on the rationals: the uniform state vector
    of [uniform2]. *)
Lemma statevector_mass_accounting_witness :
  let A := rationals Sample.numpy in
  let probabilities := map (fun _ => Q2Qc (1 # 8)) (seq 0 8) in
  let a_probabilities := fst Scenario.uniform2_distributions in
  let y_probabilities := snd Scenario.uniform2_distributions in
  (exists ys,
      map (evaluation_index Scenario.uniform2)
        (seq 0 (List.length probabilities))
      = map Some ys
      /\ forall y,
           dict_get Z.eqb y_probabilities y (num_of_int A 0)
           = python_sum A (contributions Z.eqb (combine ys probabilities) y))
  /\ (forall a,
        dict_get Float.eqb a_probabilities a (num_of_int A 0)
        = python_sum A
            (contributions Float.eqb
               (amplitude_events (@amplitude Sample.numpy Scenario.uniform2)
                  Scenario.uniform2 y_probabilities)
               a))
  /\ python_sum A (values y_probabilities) = python_sum A probabilities
  /\ python_sum A (values a_probabilities) = python_sum A probabilities.
Proof.
  intros A probabilities a_probabilities y_probabilities.
  destruct (@statevector_mass_accounting A Qc Float.eqb
              (@amplitude Sample.numpy) Scenario.uniform2 probabilities
              a_probabilities y_probabilities)
    as (Hy & Ha & Hsum).
  - apply (eqb_spec_sym Float.eqb eqb_eq).
  - apply (eqb_spec_trans Float.eqb eqb_eq).
  - vm_compute. reflexivity.
  - split; [exact Hy |]. split; [exact Ha |].
    apply Hsum; intros; [apply Qcplus_assoc | apply Qcplus_comm
                        | apply Qcplus_0_l].
Defined.

(** C9 as stated fails in binary64.  One evaluation qubit, probabilities
    [0.3, 0.3, 0.3, 0.1]: the grid distribution is [{0: 0.6, 1: 0.4}] and
    the amplitude distribution [{0.0: 0.6, 1.0: 0.4}], both of sum [1.0],
    while the input sums to [0.9999999999999999]. *)
Lemma statevector_mass_differs_in_binary64 :
  exists a_probabilities y_probabilities,
    evaluate_statevector_results_in Binary64.arithmetic PrimFloat.eqb
      Binary64.amplitude Binary64.self Binary64.probabilities
    = Ok (a_probabilities, y_probabilities)
    /\ y_probabilities = [(0%Z, 0.6%float); (1%Z, 0.4%float)]
    /\ a_probabilities = [(0%float, 0.6%float); (1%float, 0.4%float)]
    /\ python_sum Binary64.arithmetic (values y_probabilities) = 1%float
    /\ python_sum Binary64.arithmetic (values a_probabilities) = 1%float
    /\ python_sum Binary64.arithmetic Binary64.probabilities
       = 0.9999999999999999%float
    /\ python_sum Binary64.arithmetic (values y_probabilities)
       <> python_sum Binary64.arithmetic Binary64.probabilities.
Proof.
  do 2 eexists. split; [vm_compute; reflexivity |].
  split; [vm_compute; reflexivity |].
  split; [vm_compute; reflexivity |].
  split; [vm_compute; reflexivity |].
  split; [vm_compute; reflexivity |].
  split; [vm_compute; reflexivity |].
  intro H. apply (f_equal (fun x => PrimFloat.eqb x 1)) in H.
  vm_compute in H. discriminate.
Qed.

(** ** The fold of the grid index *)

Section FoldFacts.

Context {NP : Numpy}.

Local Open Scope Qc_scope.

(** On a grid of [M = 2 ^ m] points, [m >= 1], the fold sends an index
    to itself below [M / 2] and to [M - y] from [M / 2] on. *)
Lemma fold_index_remap (self : AmplitudeEstimation) (y : Z) :
  (1 <= _m self)%nat ->
  _M self = (2 ^ Z.of_nat (_m self))%Z ->
  (0 <= y < _M self)%Z ->
  fold_index self y = (if (_M self / 2 <=? y)%Z then _M self - y else y)%Z
  /\ (0 <= fold_index self y <= _M self / 2)%Z.
Proof.
  intros Hm HM Hy. unfold fold_index. rewrite HM in *.
  replace (Z.of_nat (_m self)) with (Z.succ (Z.of_nat (_m self - 1))) in *
    by lia.
  rewrite Z.pow_succ_r in * by lia.
  set (h := (2 ^ Z.of_nat (_m self - 1))%Z) in *.
  assert (Hh : (0 < h)%Z) by (apply Z.pow_pos_nonneg; lia).
  rewrite Z.quot_div_nonneg by lia.
  replace (2 * h)%Z with (h * 2)%Z in * by ring. rewrite Z.div_mul by lia.
  split; [reflexivity |]. destruct (Z.leb_spec h y); lia.
Qed.

Lemma measured_index_range (self : AmplitudeEstimation) (state : string)
    (y : Z) :
  binary (Py.strip_spaces (list_ascii_of_string state)) ->
  measured_index self state = Some y ->
  (0 <= y < 2 ^ Z.of_nat (_m self))%Z.
Proof.
  intros Hb. unfold measured_index.
  set (s := Py.reversed (Py.prefix (_m self)
                           (Py.strip_spaces (list_ascii_of_string state)))).
  assert (Hs : binary s) by (apply binary_strip_prefix_rev, Hb).
  destruct s as [| c s'] eqn:Es; [discriminate |].
  assert (Hne : c :: s' <> []) by discriminate.
  destruct (int2_binary Hs Hne) as (y' & -> & Hr). intros [= <-].
  split; [lia |]. eapply Z.lt_le_trans; [apply Hr |].
  apply Z.pow_le_mono_r; [lia |]. rewrite <- Es. unfold s, Py.reversed, Py.prefix.
  rewrite length_rev.
  pose proof (firstn_le_length (_m self)
                (Py.strip_spaces (list_ascii_of_string state))). lia.
Qed.

Lemma counts_loop_grid_keys (self : AmplitudeEstimation) (shots : Z)
    (counts : list (string * Z)) :
  binary_states counts ->
  forall y_p a_p a_p' y_p',
    counts_loop self shots counts y_p a_p = Ok (a_p', y_p') ->
    forall y, In y (keys y_p') ->
      In y (keys y_p) \/ (0 <= y < 2 ^ Z.of_nat (_m self))%Z.
Proof.
  induction 1 as [| [state n] counts Hb Hbs IH];
    intros y_p a_p a_p' y_p'; simpl.
  - intros [= <- <-]. auto.
  - destruct (measured_index self state) as [y0 |] eqn:E; [| discriminate].
    destruct (shots =? 0)%Z; [discriminate |].
    intros H y Hy. destruct (IH _ _ _ _ H y Hy) as [Hin | Hin]; [| auto].
    apply keys_dict_set in Hin. destruct Hin as [-> | Hin]; [| auto].
    right. exact (measured_index_range self state Hb E).
Qed.

(** C2 (as the code has it).  With [1 <= m < 1024] evaluation qubits
    (the range in which [2 ** m] converts to a float) and [M = 2 ^ m]:
    the fold maps an index [y >= M / 2] to [M - y] and leaves the others,
    so a folded index is at most [M / 2].  On the statevector path the
    aggregation returns; the keys of the grid distribution are the grid
    indices of the input positions, raw and not folded, in [[0, M)]; the
    keys of the amplitude distribution are exactly the amplitudes of the
    folded grid keys; and the mass under an amplitude key is the sum, in
    order, of the grid masses whose folded amplitude it is.  On the QASM
    path, for measured strings of binary digits, the keys of the grid
    distribution are raw indices in [[0, M)] as well. *)
Theorem grid_keys_raw_amplitudes_folded (self : AmplitudeEstimation) :
  (1 <= _m self < 1024)%nat ->
  _M self = (2 ^ Z.of_nat (_m self))%Z ->
  (forall y, (0 <= y < _M self)%Z ->
      fold_index self y
      = (if (_M self / 2 <=? y)%Z then _M self - y else y)%Z
      /\ (0 <= fold_index self y <= _M self / 2)%Z)
  /\ (forall probabilities,
        exists a_probabilities y_probabilities ys,
          _evaluate_statevector_results self probabilities
          = Ok (a_probabilities, y_probabilities)
          /\ map (evaluation_index self) (seq 0 (List.length probabilities))
             = map Some ys
          /\ (forall y, In y (keys y_probabilities) <-> In y ys)
          /\ (forall y, In y (keys y_probabilities) -> (0 <= y < _M self)%Z)
          /\ (forall a,
                In a (keys a_probabilities)
                <-> exists y, In y (keys y_probabilities)
                              /\ a = amplitude self (fold_index self y))
          /\ (forall a,
                dict_get Float.eqb a_probabilities a 0
                = python_sum (rationals NP)
                    (contributions Float.eqb
                       (amplitude_events (amplitude self) self
                          y_probabilities)
                       a)))
  /\ (forall counts a_probabilities y_probabilities,
        _quantum_instance self = qasm_simulator counts ->
        binary_states counts ->
        aggregate self = Ok (a_probabilities, y_probabilities) ->
        forall y, In y (keys y_probabilities) -> (0 <= y < _M self)%Z).
Proof.
  intros [Hm _] HM. split; [| split].
  - intros y Hy. now apply fold_index_remap.
  - intro probabilities. unfold _evaluate_statevector_results.
    destruct (y_loop_total self probabilities Hm 0%nat []) as (d & E).
    rewrite E.
    pose proof E as E'. rewrite <- y_loop_rationals in E'.
    destruct (@y_loop_in_events (rationals NP) self probabilities 0%nat [] d E')
      as (ys & Hys & Hd).
    assert (Hlen : List.length ys = List.length probabilities).
    { apply (f_equal (@List.length _)) in Hys.
      now rewrite !length_map, length_seq in Hys. }
    exists (fold_left (a_step self) (items d) []), d, ys.
    split; [reflexivity |]. split; [exact Hys |]. split; [| split; [| split]].
    + intro y. rewrite Hd.
      rewrite (accumulate_events_keys (rationals NP) Z.eqb Z.eqb_eq).
      rewrite combine_fst by exact Hlen. simpl. tauto.
    + intros y Hy. rewrite HM.
      destruct (y_loop_keys self probabilities Hm _ _ E y Hy) as [[] | H].
      exact H.
    + intro a. rewrite a_loop_rationals.
      etransitivity;
        [exact (accumulate_events_keys (rationals NP) Float.eqb eqb_eq
                  _ [] a) |].
      unfold amplitude_events, items, keys. rewrite map_map. cbn [fst].
      split.
      * intros [[] | Hin]. apply in_map_iff in Hin.
        destruct Hin as ([y p] & <- & Hin). exists y.
        split; [| reflexivity]. apply in_map_iff. exists (y, p). auto.
      * intros (y & Hin & ->). right. apply in_map_iff in Hin.
        destruct Hin as ([y' p] & <- & Hin). apply in_map_iff.
        exists (y', p). auto.
    + intro a. rewrite a_loop_rationals.
      exact (accumulate_events_get (rationals NP) Float.eqb
               (eqb_spec_sym Float.eqb eqb_eq)
               (eqb_spec_trans Float.eqb eqb_eq) _ [] a).
  - intros counts a_p y_p Hqi Hb. unfold aggregate. rewrite Hqi, HM.
    intros H y Hy.
    destruct (@counts_loop_grid_keys self (sum_counts counts) counts Hb
                _ _ _ _ H y Hy) as [[] | Hr].
    exact Hr.
Qed.

End FoldFacts.

(** A run of C2 as amended: the uniform state vector of [uniform2] and
    the two measured strings of [measured2]. *)
Lemma grid_keys_raw_amplitudes_folded_witness :
  (exists a_probabilities y_probabilities ys,
      @_evaluate_statevector_results Sample.numpy Scenario.uniform2
        (map (fun _ => Q2Qc (1 # 8)) (seq 0 8))
      = Ok (a_probabilities, y_probabilities)
      /\ map (evaluation_index Scenario.uniform2) (seq 0 8) = map Some ys
      /\ (forall y, In y (keys y_probabilities) <-> In y ys)
      /\ (forall y, In y (keys y_probabilities) -> (0 <= y < 4)%Z)
      /\ (forall a,
            In a (keys a_probabilities)
            <-> exists y, In y (keys y_probabilities)
                          /\ a = @amplitude Sample.numpy Scenario.uniform2
                                   (fold_index Scenario.uniform2 y))
      /\ (forall a,
            dict_get Float.eqb a_probabilities a (Q2Qc 0)
            = python_sum (rationals Sample.numpy)
                (contributions Float.eqb
                   (amplitude_events
                      (@amplitude Sample.numpy Scenario.uniform2)
                      Scenario.uniform2 y_probabilities)
                   a)))
  /\ (forall y,
        In y (keys (match @aggregate Sample.numpy Scenario.measured2 with
                    | Ok d => snd d
                    | Raise _ => []
                    end)) ->
        (0 <= y < 4)%Z).
Proof.
  split.
  - apply (proj1 (proj2
      (@grid_keys_raw_amplitudes_folded Sample.numpy Scenario.uniform2
         ltac:(simpl; lia) eq_refl))).
  - apply (proj2 (proj2
      (@grid_keys_raw_amplitudes_folded Sample.numpy Scenario.measured2
         ltac:(simpl; lia) eq_refl))
      [("10"%string, 1%Z); ("11"%string, 1%Z)]
      (match @aggregate Sample.numpy Scenario.measured2 with
       | Ok d => fst d
       | Raise _ => []
       end)).
    + reflexivity.
    + unfold binary_states, binary.
      repeat (apply Forall_cons || apply Forall_nil); cbn;
        repeat (apply Forall_cons || apply Forall_nil); auto.
    + vm_compute. reflexivity.
Defined.

(** C2 as stated fails: after [_run] on the uniform state vector over two
    evaluation qubits, the stored grid distribution has the key [3], which
    exceeds [M / 2 = 2]. *)
Lemma grid_distribution_keeps_raw_keys :
  exists s y_items,
    @_run Sample.numpy Scenario.uniform2 [] = (Ok s, s)
    /\ dict_getitem String.eqb s "y_items"%string = Some (PyYItems y_items)
    /\ In 3%Z (map fst y_items)
    /\ (_M Scenario.uniform2 / 2 < 3)%Z.
Proof.
  eexists. eexists. split; [vm_compute; reflexivity |].
  split; [vm_compute; reflexivity |].
  split; [vm_compute; tauto | reflexivity].
Qed.

(** ** The stored results *)

Section RetFacts.

Local Open Scope string_scope.

Lemma lookup_set (s : Ret) (k k' : string) (v : pyval) :
  lookup (dict_set String.eqb s k v) k'
  = if String.eqb k' k then Some v else lookup s k'.
Proof.
  unfold lookup. induction s as [| [k0 v0] s IH]; simpl.
  - reflexivity.
  - destruct (String.eqb_spec k k0) as [-> | Hk]; simpl.
    + destruct (String.eqb k' k0); reflexivity.
    + rewrite IH. destruct (String.eqb_spec k' k0) as [-> | Hk'];
        [| reflexivity].
      destruct (String.eqb_spec k0 k); [congruence | reflexivity].
Qed.

(** The loop that determines the most likely estimator runs to its end
    and touches only ['max_probability'] and ['estimation']. *)
Lemma most_likely_loop (l : list (Qc * Qc)) :
  forall (s : Ret) (x : Qc),
    lookup s "max_probability" = Some (PyFloat x) ->
    exists s',
      for_each l most_likely_step s = (Ok tt, s')
      /\ (exists x', lookup s' "max_probability" = Some (PyFloat x'))
      /\ (forall k, k <> "max_probability" -> k <> "estimation" ->
            lookup s' k = lookup s k).
Proof.
  induction l as [| [val prob] l IH]; intros s x Hx; simpl.
  - exists s. unfold ret. eauto.
  - unfold bind at 1. unfold most_likely_step.
    unfold bind at 1. unfold bind at 1. unfold getitem. rewrite Hx.
    cbn [as_float ret].
    destruct (Float.ltb x prob).
    + unfold bind, setitem.
      set (s1 := dict_set String.eqb
                   (dict_set String.eqb s "max_probability" (PyFloat prob))
                   "estimation" (PyFloat val)).
      destruct (IH s1 prob) as (s' & Hrun & Hmax & Hframe).
      { unfold s1. rewrite !lookup_set. reflexivity. }
      exists s'. split; [exact Hrun |]. split; [exact Hmax |].
      intros k Hk1 Hk2. rewrite (Hframe k Hk1 Hk2). unfold s1.
      rewrite !lookup_set.
      destruct (String.eqb_spec k "estimation"); [congruence |].
      destruct (String.eqb_spec k "max_probability"); [congruence |].
      reflexivity.
    + unfold ret. destruct (IH s x Hx) as (s' & Hrun & Hmax & Hframe).
      exists s'. auto.
Qed.

End RetFacts.

(** ** The lists of [_run] *)

Section RunFacts.

Context {NP : Numpy}.

Local Open Scope string_scope.

(** [_run] succeeds as soon as the aggregation does, returns the stored
    results, and stores the lists built by [construct_items]. *)
Lemma run_stores (self : AmplitudeEstimation) (s : Ret)
    (a_probabilities : dict Qc Qc) (y_probabilities : dict Z Qc) :
  aggregate self = Ok (a_probabilities, y_probabilities) ->
  exists s',
    _run self s = (Ok s', s')
    /\ lookup s' "a_items"
       = Some (PyItems (fst (construct_items a_probabilities y_probabilities)))
    /\ lookup s' "y_items"
       = Some (PyYItems (snd (construct_items a_probabilities y_probabilities)))
    /\ lookup s' "values"
       = Some (PyFloats
                 (map fst (fst (construct_items a_probabilities y_probabilities))))
    /\ lookup s' "probabilities"
       = Some (PyFloats
                 (map snd (fst (construct_items a_probabilities y_probabilities)))).
Proof.
  intro Hagg. unfold _run, aggregate in *.
  destruct (construct_items a_probabilities y_probabilities)
    as [a_items y_items] eqn:Hitems.
  set (s0 := match _quantum_instance self with
             | statevector_simulator v =>
                 dict_set String.eqb s "statevector" (PyStatevector v)
             | qasm_simulator c => dict_set String.eqb s "counts" (PyCounts c)
             end).
  match goal with
  | |- exists s', bind ?c ?k s = _ /\ _ =>
      assert (Hc : c s = (Ok (a_probabilities, y_probabilities), s0))
  end.
  { unfold s0. destruct (_quantum_instance self);
      unfold bind, setitem, lift; rewrite Hagg; reflexivity. }
  unfold bind at 1. rewrite Hc. cbn [fst snd]. rewrite Hitems.
  unfold bind, setitem.
  match goal with
  | |- exists s', match for_each ?l _ ?s9 with _ => _ end = _ /\ _ =>
      destruct (most_likely_loop l s9 (x := Q2Qc 0))
        as (s' & Hrun & _ & Hframe)
  end.
  { rewrite !lookup_set. reflexivity. }
  rewrite Hrun. exists s'. unfold return_ret. split; [reflexivity |].
  repeat split;
    (rewrite Hframe by discriminate; rewrite !lookup_set; reflexivity).
Qed.

End RunFacts.

Section ItemsFacts.

Context {NP : Numpy}.

Local Open Scope Qc_scope.

Lemma tuple_leb_Qc_total (x y : Qc * Qc) :
  tuple_leb Qccompare Qccompare x y = true
  \/ tuple_leb Qccompare Qccompare y x = true.
Proof.
  unfold tuple_leb, Qccompare.
  rewrite <- (Qcompare_antisym (fst x) (fst y)).
  rewrite <- (Qcompare_antisym (snd x) (snd y)).
  destruct (Qcompare (fst x) (fst y)), (Qcompare (snd x) (snd y));
    simpl; auto.
Qed.

Lemma tuple_leb_Z_total (x y : Z * Qc) :
  tuple_leb Z.compare Qccompare x y = true
  \/ tuple_leb Z.compare Qccompare y x = true.
Proof.
  unfold tuple_leb, Qccompare.
  rewrite (Z.compare_antisym (fst x) (fst y)).
  rewrite <- (Qcompare_antisym (snd x) (snd y)).
  destruct (Z.compare (fst x) (fst y)), (Qcompare (snd x) (snd y));
    simpl; auto.
Qed.

(** A list sorted as tuples whose keys are pairwise distinct is strictly
    ascending by key. *)
Lemma sorted_Qc_keys (l : list (Qc * Qc)) :
  Sorted (fun a b => tuple_leb Qccompare Qccompare a b = true) l ->
  NoDup (map fst l) ->
  Sorted (fun a b => fst a < fst b) l.
Proof.
  induction 1 as [| x l Hs IH Hhd]; intro Hnd; constructor.
  - apply IH. now inversion Hnd.
  - destruct Hhd as [| y l Hxy]; constructor.
    unfold tuple_leb in Hxy.
    destruct (Qccompare (fst x) (fst y)) eqn:E.
    + apply Qceq_alt in E. simpl in Hnd. inversion Hnd as [| ? ? Hnotin _].
      exfalso. apply Hnotin. left. symmetry. exact E.
    + now apply Qclt_alt.
    + discriminate.
Qed.

Lemma sorted_Z_keys (l : list (Z * Qc)) :
  Sorted (fun a b => tuple_leb Z.compare Qccompare a b = true) l ->
  NoDup (map fst l) ->
  Sorted (fun a b => (fst a < fst b)%Z) l.
Proof.
  induction 1 as [| x l Hs IH Hhd]; intro Hnd; constructor.
  - apply IH. now inversion Hnd.
  - destruct Hhd as [| y l Hxy]; constructor.
    unfold tuple_leb in Hxy.
    destruct (Z.compare (fst x) (fst y)) eqn:E.
    + apply Z.compare_eq in E. simpl in Hnd. inversion Hnd as [| ? ? Hnotin _].
      exfalso. apply Hnotin. left. symmetry. exact E.
    + exact E.
    + discriminate.
Qed.

Lemma map_pair_id (K V : Type) (l : list (K * V)) :
  map (fun kv => (fst kv, snd kv)) l = l.
Proof.
  induction l as [| [k v] l IH]; simpl; [| rewrite IH]; reflexivity.
Qed.

Lemma counts_loop_nodup (self : AmplitudeEstimation) (shots : Z)
    (counts : list (string * Z)) :
  forall y_p a_p a_p' y_p',
    counts_loop self shots counts y_p a_p = Ok (a_p', y_p') ->
    NoDup (keys y_p) -> NoDup (keys a_p) ->
    NoDup (keys y_p') /\ NoDup (keys a_p').
Proof.
  induction counts as [| [state n] counts IH]; intros y_p a_p a_p' y_p'; simpl.
  - intros [= <- <-]. auto.
  - destruct (measured_index self state) as [y |]; [| discriminate].
    destruct (shots =? 0)%Z; [discriminate |].
    intros H Hy Ha. apply (IH _ _ _ _ H).
    + apply keys_dict_set_nodup; [| assumption].
      intros x ? <-. apply Z.eqb_refl.
    + apply keys_dict_set_nodup; [| assumption].
      intros x ? <-. now apply eqb_eq.
Qed.

(** Both aggregated dictionaries have pairwise distinct keys. *)
Lemma aggregate_nodup (self : AmplitudeEstimation)
    (a_p : dict Qc Qc) (y_p : dict Z Qc) :
  aggregate self = Ok (a_p, y_p) ->
  NoDup (keys y_p) /\ NoDup (keys a_p).
Proof.
  unfold aggregate. destruct (_quantum_instance self) as [v | c].
  - unfold _evaluate_statevector_results.
    destruct (y_loop self 0 (state_probabilities v) []) as [d |] eqn:E;
      [| discriminate].
    intros [= <- <-]. split.
    + apply (y_loop_nodup _ _ _ _ E). constructor.
    + apply a_loop_nodup. constructor.
  - intro H. apply (counts_loop_nodup _ _ _ _ _ H); constructor.
Qed.

(** C8. The lists [_run] stores under ['a_items'] and ['y_items'] are
    the entries of the aggregated dictionaries, all of them whatever
    their probability (a permutation, so nothing is pruned and nothing
    added), in strictly ascending order of their keys. *)
Theorem run_items_sorted_and_complete (self : AmplitudeEstimation)
    (s : Ret) (a_probabilities : dict Qc Qc) (y_probabilities : dict Z Qc) :
  aggregate self = Ok (a_probabilities, y_probabilities) ->
  exists s' a_items y_items,
    _run self s = (Ok s', s')
    /\ lookup s' "a_items" = Some (PyItems a_items)
    /\ lookup s' "y_items" = Some (PyYItems y_items)
    /\ Permutation (items a_probabilities) a_items
    /\ Permutation (items y_probabilities) y_items
    /\ Sorted (fun a b => fst a < fst b) a_items
    /\ Sorted (fun a b => (fst a < fst b)%Z) y_items.
Proof.
  intro Hagg.
  destruct (run_stores self s Hagg) as (s' & Hrun & Ha & Hy & _).
  destruct (aggregate_nodup self Hagg) as [Hndy Hnda].
  exists s'. do 2 eexists.
  split; [exact Hrun |]. split; [exact Ha |]. split; [exact Hy |].
  unfold construct_items. cbn [fst snd]. rewrite !map_pair_id.
  split; [apply sorted_perm |]. split; [apply sorted_perm |]. split.
  - apply sorted_Qc_keys.
    + apply sorted_locally, tuple_leb_Qc_total.
    + eapply Permutation_NoDup; [| exact Hnda].
      apply Permutation_map, sorted_perm.
  - apply sorted_Z_keys.
    + apply sorted_locally, tuple_leb_Z_total.
    + eapply Permutation_NoDup; [| exact Hndy].
      apply Permutation_map, sorted_perm.
Qed.

End ItemsFacts.

(** ** [ci] reads and never writes *)

Section ReadsOnly.

Lemma reads_ret (A : Type) (a : A) : reads_only (ret a).
Proof. intro s. reflexivity. Qed.

Lemma reads_raise (A : Type) (e : exn) : reads_only (@raise A e).
Proof. intro s. reflexivity. Qed.

Lemma reads_lift (A : Type) (r : result A) : reads_only (lift r).
Proof. destruct r; [apply reads_ret | apply reads_raise]. Qed.

Lemma reads_getitem (key : string) : reads_only (getitem key).
Proof. intro s. unfold getitem. destruct (lookup s key); reflexivity. Qed.

Lemma reads_bind (A B : Type) (c : M A) (k : A -> M B) :
  reads_only c -> (forall a, reads_only (k a)) -> reads_only (bind c k).
Proof.
  intros Hc Hk s. unfold bind. specialize (Hc s).
  destruct (c s) as [[a | e] s']; simpl in *; subst.
  - apply Hk.
  - reflexivity.
Qed.

Lemma reads_as_float (v : pyval) : reads_only (as_float v).
Proof. destruct v; first [apply reads_ret | apply reads_raise]. Qed.

Lemma reads_as_floats (v : pyval) : reads_only (as_floats v).
Proof. destruct v; first [apply reads_ret | apply reads_raise]. Qed.

Lemma reads_as_counts (v : pyval) : reads_only (as_counts v).
Proof. destruct v; first [apply reads_ret | apply reads_raise]. Qed.

Lemma reads_get_shots (self : AmplitudeEstimation) :
  reads_only (get_shots self).
Proof.
  unfold get_shots. destruct (is_statevector (_quantum_instance self)).
  - apply reads_ret.
  - apply reads_bind.
    + apply reads_bind; [apply reads_getitem | apply reads_as_counts].
    + intro. apply reads_ret.
Qed.

End ReadsOnly.

Create HintDb reads.

#[local] Hint Resolve reads_ret reads_raise reads_lift reads_getitem
  reads_as_float reads_as_floats reads_as_counts reads_get_shots : reads.

Section CiFrame.

Context {NP : Numpy} {AU : AquaUtils}.

(** C10. [ci] has no effect on the stored results: for every [alpha],
    every method name, supported or not, and every content of
    [self._ret], the stored results after the call are the ones before
    it, whether the call returns an interval or raises. *)
Theorem ci_leaves_results_unchanged (self : AmplitudeEstimation)
    (alpha : Qc) (kind : string) (s : Ret) :
  snd (ci self alpha kind s) = s.
Proof.
  revert s. change (reads_only (ci self alpha kind)). unfold ci.
  repeat (apply reads_bind;
          [first [solve [auto with reads]
                 | apply reads_bind; [solve [auto with reads] | intro; auto with reads]]
          | intro]).
  repeat match goal with
         | |- reads_only (if ?b then _ else _) => destruct b
         end; auto with reads.
Qed.

End CiFrame.

(** ** What [ci] computes *)

Section CiFacts.

Context {NP : Numpy} {AU : AquaUtils}.

Local Open Scope string_scope.
Local Open Scope Qc_scope.

Lemma bind_ok (A B : Type) (c : M A) (k : A -> M B) (s s' : Ret) (a : A) :
  c s = (Ok a, s') -> bind c k s = k a s'.
Proof. intro H. unfold bind. rewrite H. reflexivity. Qed.

Lemma bind_raise (A B : Type) (c : M A) (k : A -> M B) (s s' : Ret)
    (e : exn) :
  c s = (Raise e, s') -> bind c k s = (Raise e, s').
Proof. intro H. unfold bind. rewrite H. reflexivity. Qed.

Lemma read_float_ok (key : string) (s : Ret) (x : Qc) :
  lookup s key = Some (PyFloat x) ->
  bind (getitem key) as_float s = (Ok x, s).
Proof. intro H. unfold bind, getitem. rewrite H. reflexivity. Qed.

Lemma read_floats_ok (key : string) (s : Ret) (l : list Qc) :
  lookup s key = Some (PyFloats l) ->
  bind (getitem key) as_floats s = (Ok l, s).
Proof. intro H. unfold bind, getitem. rewrite H. reflexivity. Qed.

Lemma get_shots_ok (self : AmplitudeEstimation) (s : Ret) (shots : Z) :
  fst (get_shots self s) = Ok shots -> get_shots self s = (Ok shots, s).
Proof.
  intro H. pose proof (reads_get_shots self s) as Hs.
  destruct (get_shots self s) as [r s1]. simpl in *. congruence.
Qed.

(** Once its inputs are read, [ci] dispatches on the method name. *)
Lemma ci_dispatch (self : AmplitudeEstimation) (alpha : Qc) (kind : string)
    (s : Ret) (shots : Z) (mle : Qc) (ai pi : list Qc) :
  ci_ready self s shots mle ai pi ->
  fst (ci self alpha kind s)
  = if String.eqb kind "fisher" then
      Ok (ci_fisher self alpha mle shots)
    else if String.eqb kind "observed_fisher" then
      Ok (ci_observed_fisher self alpha mle ai pi shots)
    else if String.eqb kind "likelihood_ratio" then
      ci_likelihood_ratio self alpha mle ai pi shots
    else
      Raise (AquaError
        ("Confidence interval kind " ++ kind ++ " not implemented.")).
Proof.
  intros (Hshots & Hmle & Hai & Hpi). unfold ci.
  rewrite (@bind_ok _ _ _ _ _ _ _ (get_shots_ok _ _ Hshots)).
  rewrite (@bind_ok _ _ _ _ _ _ _ (read_float_ok _ _ Hmle)).
  rewrite (@bind_ok _ _ _ _ _ _ _ (read_floats_ok _ _ Hai)).
  rewrite (@bind_ok _ _ _ _ _ _ _ (read_floats_ok _ _ Hpi)).
  destruct (String.eqb kind "fisher"); [reflexivity |].
  destruct (String.eqb kind "observed_fisher"); [reflexivity |].
  destruct (String.eqb kind "likelihood_ratio"); [| reflexivity].
  destruct (ci_likelihood_ratio self alpha mle ai pi shots); reflexivity.
Qed.

Lemma get_shots_no_aqua_error (self : AmplitudeEstimation) (s : Ret)
    (msg : string) :
  fst (get_shots self s) <> Raise (AquaError msg).
Proof.
  unfold get_shots. destruct (is_statevector (_quantum_instance self));
    [discriminate |].
  unfold bind, getitem.
  destruct (lookup s "counts") as [[] |]; simpl; discriminate.
Qed.

Lemma read_float_result (key : string) (s : Ret) :
  (exists x, bind (getitem key) as_float s = (Ok x, s))
  \/ bind (getitem key) as_float s = (Raise (KeyError key), s)
  \/ bind (getitem key) as_float s = (Raise TypeError, s).
Proof.
  unfold bind, getitem.
  destruct (lookup s key) as [[] |]; cbv [as_float as_floats ret raise]; eauto.
Qed.

Lemma read_floats_result (key : string) (s : Ret) :
  (exists l, bind (getitem key) as_floats s = (Ok l, s))
  \/ bind (getitem key) as_floats s = (Raise (KeyError key), s)
  \/ bind (getitem key) as_floats s = (Raise TypeError, s).
Proof.
  unfold bind, getitem.
  destruct (lookup s key) as [[] |]; cbv [as_float as_floats ret raise]; eauto.
Qed.

(** Either [ci] stops on a missing or ill-typed input, with a
    [KeyError] or a [TypeError], or all four inputs are there. *)
Lemma ci_inputs (self : AmplitudeEstimation) (alpha : Qc) (kind : string)
    (s : Ret) :
  (exists e, fst (ci self alpha kind s) = Raise e
             /\ forall msg, e <> AquaError msg)
  \/ exists shots mle ai pi, ci_ready self s shots mle ai pi.
Proof.
  unfold ci, ci_ready.
  pose proof (reads_get_shots self s) as Hs.
  pose proof (get_shots_no_aqua_error self s) as Hne.
  destruct (get_shots self s) as [[shots | e] s1] eqn:Hshots;
    simpl in Hs, Hne; subst s1.
  2:{ left. exists e. rewrite (@bind_raise _ _ _ _ _ _ _ Hshots).
      split; [reflexivity |]. intros msg ->. now apply (Hne msg). }
  rewrite (@bind_ok _ _ _ _ _ _ _ Hshots).
  destruct (read_float_result "mle_value" s) as [(mle & Hm) | [Hm | Hm]];
    [rewrite (@bind_ok _ _ _ _ _ _ _ Hm)
    | left; eexists; rewrite (@bind_raise _ _ _ _ _ _ _ Hm);
      split; [reflexivity | discriminate] ..].
  destruct (read_floats_result "values" s) as [(ai & Ha) | [Ha | Ha]];
    [rewrite (@bind_ok _ _ _ _ _ _ _ Ha)
    | left; eexists; rewrite (@bind_raise _ _ _ _ _ _ _ Ha);
      split; [reflexivity | discriminate] ..].
  destruct (read_floats_result "probabilities" s) as [(pi & Hp) | [Hp | Hp]];
    [rewrite (@bind_ok _ _ _ _ _ _ _ Hp)
    | left; eexists; rewrite (@bind_raise _ _ _ _ _ _ _ Hp);
      split; [reflexivity | discriminate] ..].
  right. exists shots, mle, ai, pi. split; [reflexivity |].
  unfold bind, getitem in Hm, Ha, Hp.
  destruct (lookup s "mle_value") as [[] |]; try discriminate.
  destruct (lookup s "values") as [[] |]; try discriminate.
  destruct (lookup s "probabilities") as [[] |]; try discriminate.
  simpl in *. unfold ret in *. repeat split; congruence.
Qed.

Lemma likelihood_ratio_no_aqua_error (self : AmplitudeEstimation)
    (alpha mle : Qc) (ai pi : list Qc) (shots : Z) (msg : string) :
  ci_likelihood_ratio self alpha mle ai pi shots <> Raise (AquaError msg).
Proof.
  unfold ci_likelihood_ratio.
  repeat match goal with
         | |- context [match ?x with _ => _ end] => destruct x
         end; discriminate.
Qed.

(** C7. For a method name that is none of [fisher], [observed_fisher]
    and [likelihood_ratio], [ci] never returns an interval: it raises,
    and once its inputs are stored the exception is the [AquaError]
    that names the method.  For the three supported names that error is
    never raised. *)
Theorem ci_unsupported_kind_raises (self : AmplitudeEstimation)
    (alpha : Qc) (kind : string) (s : Ret) :
  (kind <> "fisher" -> kind <> "observed_fisher" ->
   kind <> "likelihood_ratio" ->
   (exists e, fst (ci self alpha kind s) = Raise e)
   /\ (forall shots mle ai pi,
          ci_ready self s shots mle ai pi ->
          fst (ci self alpha kind s)
          = Raise (AquaError
              ("Confidence interval kind " ++ kind ++ " not implemented."))))
  /\ (kind = "fisher" \/ kind = "observed_fisher"
      \/ kind = "likelihood_ratio" ->
      forall msg, fst (ci self alpha kind s) <> Raise (AquaError msg)).
Proof.
  split.
  - intros H1 H2 H3.
    assert (Hraise : forall shots mle ai pi,
               ci_ready self s shots mle ai pi ->
               fst (ci self alpha kind s)
               = Raise (AquaError
                   ("Confidence interval kind " ++ kind ++ " not implemented."))).
    { intros shots mle ai pi Hready.
      rewrite (ci_dispatch alpha kind Hready).
      destruct (String.eqb_spec kind "fisher"); [contradiction |].
      destruct (String.eqb_spec kind "observed_fisher"); [contradiction |].
      destruct (String.eqb_spec kind "likelihood_ratio"); [contradiction |].
      reflexivity. }
    split; [| exact Hraise].
    destruct (ci_inputs self alpha kind s)
      as [(e & He & _) | (shots & mle & ai & pi & Hready)]; eauto.
  - intros Hkind msg.
    destruct (ci_inputs self alpha kind s)
      as [(e & He & Hne) | (shots & mle & ai & pi & Hready)].
    + rewrite He. intros [= ->]. now apply (Hne msg).
    + rewrite (ci_dispatch alpha kind Hready).
      destruct Hkind as [-> | [-> | ->]]; cbn [String.eqb Ascii.eqb Bool.eqb];
        try discriminate.
      apply likelihood_ratio_no_aqua_error.
Qed.

End CiFacts.

(** ** Minimum and maximum of an array *)

Section MinMax.

Local Open Scope Qc_scope.

Lemma fold_min_spec (l : list Qc) :
  forall a,
    let r := fold_left (fun a b => if Float.ltb b a then b else a) l a in
    (r = a \/ In r l) /\ r <= a /\ forall g, In g l -> r <= g.
Proof.
  induction l as [| b l IH]; intro a; simpl.
  - split; [auto |]. split; [apply Qcle_refl | tauto].
  - destruct (Float.ltb b a) eqn:E.
    + destruct (IH b) as (Hin & Hle & Hall). apply ltb_lt in E.
      split;
        [destruct Hin as [Hin | Hin];
         [right; left; symmetry; exact Hin | right; right; exact Hin] |].
      split.
      * eapply Qcle_trans; [exact Hle | now apply Qclt_le_weak].
      * intros g [<- | Hg]; auto.
    + destruct (IH a) as (Hin & Hle & Hall).
      assert (Hab : a <= b).
      { apply Qcnot_lt_le. intro H. apply ltb_lt in H. congruence. }
      split; [destruct Hin; auto |]. split; [assumption |].
      intros g [<- | Hg]; auto. eapply Qcle_trans; eassumption.
Qed.

Lemma fold_max_spec (l : list Qc) :
  forall a,
    let r := fold_left (fun a b => if Float.ltb a b then b else a) l a in
    (r = a \/ In r l) /\ a <= r /\ forall g, In g l -> g <= r.
Proof.
  induction l as [| b l IH]; intro a; simpl.
  - split; [auto |]. split; [apply Qcle_refl | tauto].
  - destruct (Float.ltb a b) eqn:E.
    + destruct (IH b) as (Hin & Hle & Hall). apply ltb_lt in E.
      split;
        [destruct Hin as [Hin | Hin];
         [right; left; symmetry; exact Hin | right; right; exact Hin] |].
      split.
      * eapply Qcle_trans; [apply Qclt_le_weak; exact E | exact Hle].
      * intros g [<- | Hg]; auto.
    + destruct (IH a) as (Hin & Hle & Hall).
      assert (Hab : b <= a).
      { apply Qcnot_lt_le. intro H. apply ltb_lt in H. congruence. }
      split; [destruct Hin; auto |]. split; [assumption |].
      intros g [<- | Hg]; auto. eapply Qcle_trans; eassumption.
Qed.

Lemma np_min_spec (l : list Qc) :
  l <> [] ->
  exists lo, Float.np_min l = Some lo
             /\ In lo l /\ forall g, In g l -> lo <= g.
Proof.
  destruct l as [| x l]; [congruence |]. intros _.
  destruct (fold_min_spec l x) as (Hin & Hle & Hall).
  eexists. split; [reflexivity |]. split.
  - destruct Hin as [-> | Hin]; [left | right]; auto.
  - intros g [<- | Hg]; auto.
Qed.

Lemma np_max_spec (l : list Qc) :
  l <> [] ->
  exists hi, Float.np_max l = Some hi
             /\ In hi l /\ forall g, In g l -> g <= hi.
Proof.
  destruct l as [| x l]; [congruence |]. intros _.
  destruct (fold_max_spec l x) as (Hin & Hle & Hall).
  eexists. split; [reflexivity |]. split.
  - destruct Hin as [-> | Hin]; [left | right]; auto.
  - intros g [<- | Hg]; auto.
Qed.

(** The grid of the likelihood-ratio method: the [10000] points
    [i / 9999], from [0] to [1]. *)
Lemma likelihood_grid :
  Float.np_linspace 0 1 (Z.to_nat 10000) true
  = map (fun i => Float.of_int (Z.of_nat i) / Float.of_int 9999)
      (seq 0 (Z.to_nat 10000)).
Proof.
  unfold Float.np_linspace.
  replace (Z.of_nat (Z.to_nat 10000 - 1)) with 9999%Z by lia.
  apply map_ext. intro i. unfold Qcdiv. ring.
Qed.

End MinMax.

(** ** The three methods of [ci] *)

Section CiClaims.

Context {NP : Numpy} {AU : AquaUtils}.

Local Open Scope string_scope.
Local Open Scope Qc_scope.

Lemma symmetric_interval_minus_plus (mle q : Qc) :
  symmetric_interval mle q = (mle - q, mle + q).
Proof. unfold symmetric_interval. f_equal; ring. Qed.

Lemma symmetric_interval_contains (mle q : Qc) :
  0 <= q -> mle - q <= mle <= mle + q.
Proof.
  intro Hq. split.
  - apply Qcle_minus_iff. now replace (mle + - (mle - q)) with q by ring.
  - apply Qcle_minus_iff. now replace (mle + q + - mle) with q by ring.
Qed.

Lemma div_nonneg (z std : Qc) : 0 <= z -> 0 < std -> 0 <= z / std.
Proof.
  intros Hz Hstd. unfold Qcdiv.
  replace 0 with (0 * / std) by ring.
  apply Qcmult_le_compat_r; [exact Hz |].
  unfold Qcle, Qcinv. cbn [this].
  apply Qle_trans with (/ this std)%Q.
  - apply Qinv_le_0_compat, Qlt_le_weak. exact Hstd.
  - apply Qle_lteq. right. symmetry. apply Qred_correct.
Qed.

(** C6 (as the code has it).  With its inputs stored and a standard
    deviation [sqrt(shots * I(mle, m))] other than zero, the [fisher]
    method returns exactly [mle - q] and [mle + q] for
    [q = z(alpha) / sqrt(shots * I(mle, m))], where [I] is called on the
    maximum likelihood value and the number of evaluation qubits only:
    both ends lie the same [q] away from the maximum likelihood value. *)
Theorem ci_fisher_offsets (self : AmplitudeEstimation) (alpha : Qc)
    (s : Ret) (shots : Z) (mle : Qc) (ai pi : list Qc) :
  ci_ready self s shots mle ai pi ->
  np_sqrt (Float.of_int shots * fisher_information mle (_m self)) <> 0 ->
  let q :=
    normal_quantile alpha
    / np_sqrt (Float.of_int shots * fisher_information mle (_m self)) in
  fst (ci self alpha "fisher" s) = Ok (mle - q, mle + q).
Proof.
  intros Hready _ q.
  rewrite (ci_dispatch alpha "fisher" Hready).
  cbn [String.eqb Ascii.eqb Bool.eqb].
  unfold ci_fisher, fisher_std. now rewrite symmetric_interval_minus_plus.
Qed.

(** C5. With its inputs stored, the [likelihood_ratio] method evaluates
    the log-likelihood on the uniform grid of the 10000 points [i / 9999]
    of [[0, 1]], keeps the grid points whose log-likelihood is at or
    above [loglik(mle) - chi2_quantile(alpha) / 2], and returns the
    least and the greatest of them; it raises when no grid point is
    kept. *)
Theorem ci_likelihood_ratio_grid (self : AmplitudeEstimation) (alpha : Qc)
    (s : Ret) (shots : Z) (mle : Qc) (ai pi : list Qc) :
  ci_ready self s shots mle ai pi ->
  let f := fun theta => loglik theta (_m self) ai pi shots in
  let a_grid :=
    map (fun i => Float.of_int (Z.of_nat i) / Float.of_int 9999)
      (seq 0 (Z.to_nat 10000)) in
  let threshold := f mle - chi2_quantile alpha / Float.of_int 2 in
  let selected := filter (fun theta => Float.leb threshold (f theta)) a_grid in
  (forall g, In g selected <-> In g a_grid /\ threshold <= f g)
  /\ (selected = [] ->
      fst (ci self alpha "likelihood_ratio" s) = Raise ValueError)
  /\ (selected <> [] ->
      exists lo hi,
        fst (ci self alpha "likelihood_ratio" s) = Ok (lo, hi)
        /\ In lo selected /\ In hi selected
        /\ forall g, In g selected -> lo <= g <= hi).
Proof.
  intros Hready f a_grid threshold selected.
  assert (Hci : fst (ci self alpha "likelihood_ratio" s)
                = match Float.np_min selected, Float.np_max selected with
                  | Some lo, Some hi => Ok (lo, hi)
                  | _, _ => Raise ValueError
                  end).
  { rewrite (ci_dispatch alpha "likelihood_ratio" Hready).
    cbn [String.eqb Ascii.eqb Bool.eqb].
    unfold ci_likelihood_ratio, kept_points, loglik_wrapper.
    rewrite likelihood_grid. reflexivity. }
  split; [| split].
  - intro g. unfold selected. rewrite filter_In, leb_le. reflexivity.
  - intro Hnil. rewrite Hci, Hnil. reflexivity.
  - intro Hne.
    destruct (np_min_spec Hne) as (lo & Hlo & Hlo_in & Hlo_le).
    destruct (np_max_spec Hne) as (hi & Hhi & Hhi_in & Hhi_le).
    exists lo, hi. rewrite Hci, Hlo, Hhi.
    split; [reflexivity |]. split; [exact Hlo_in |]. split; [exact Hhi_in |].
    intros g Hg. split; [apply Hlo_le | apply Hhi_le]; exact Hg.
Qed.

End CiClaims.

(** ** The statements above on concrete runs *)

(** A run of C8: the lists stored for the uniform state vector over two
    evaluation qubits. *)
Lemma run_items_sorted_and_complete_witness :
  exists s' a_items y_items,
    @_run Sample.numpy Scenario.uniform2 [] = (Ok s', s')
    /\ lookup s' "a_items" = Some (PyItems a_items)
    /\ lookup s' "y_items" = Some (PyYItems y_items)
    /\ Permutation (items (fst Scenario.uniform2_distributions)) a_items
    /\ Permutation (items (snd Scenario.uniform2_distributions)) y_items
    /\ Sorted (fun a b => (fst a < fst b)%Qc) a_items
    /\ Sorted (fun a b => (fst a < fst b)%Z) y_items.
Proof.
  apply (@run_items_sorted_and_complete Sample.numpy Scenario.uniform2 []
           (fst Scenario.uniform2_distributions)
           (snd Scenario.uniform2_distributions)).
  vm_compute. reflexivity.
Defined.

(** A run of C6 as amended on the stored results of [peaked3], at
    [alpha = 1/20]. *)
Lemma ci_fisher_offsets_witness :
  let mle := Scenario.stored_float Scenario.peaked3_ret "mle_value" in
  let q :=
    (@normal_quantile Sample.utils (Q2Qc (1 # 20))
     / @np_sqrt Sample.numpy
         (Float.of_int 1
          * @fisher_information Sample.utils mle (_m Scenario.peaked3)))%Qc in
  fst (@ci Sample.numpy Sample.utils Scenario.peaked3 (Q2Qc (1 # 20))
         "fisher" Scenario.peaked3_ret)
  = Ok ((mle - q)%Qc, (mle + q)%Qc).
Proof.
  apply (@ci_fisher_offsets Sample.numpy Sample.utils Scenario.peaked3
           (Q2Qc (1 # 20)) Scenario.peaked3_ret 1
           (Scenario.stored_float Scenario.peaked3_ret "mle_value")
           (Scenario.stored_floats Scenario.peaked3_ret "values")
           (Scenario.stored_floats Scenario.peaked3_ret "probabilities")).
  - unfold ci_ready. split; [| split; [| split]]; vm_compute; reflexivity.
  - vm_compute. discriminate.
Defined.

(** C6 as stated fails in binary64.  With the maximum likelihood value
    [0.1464466] that [peaked3] stores, one shot, [alpha = 0.05] and the
    stand-ins [z = 2 * (1 - alpha) = 1.9] and [I = 1], the [fisher] method
    returns [(-1.7535534, 2.0464466)]: the ends are [mle - 1.9] and
    [mle + 1.9], and their sum [0.29289319999999996] is not
    [2 * mle = 0.2928932]. *)
Lemma fisher_interval_sum_differs_in_binary64 :
  exists lo hi,
    ci_fisher_in Binary64.arithmetic Binary64.normal_quantile
      Binary64.fisher_information Scenario.peaked3 Binary64.alpha
      Binary64.mle_value 1
    = (lo, hi)
    /\ lo = (Binary64.mle_value - 1.9)%float
    /\ hi = (Binary64.mle_value + 1.9)%float
    /\ (lo + hi)%float = 0.29289319999999996%float
    /\ (2 * Binary64.mle_value)%float = 0.2928932%float
    /\ (lo + hi)%float <> (2 * Binary64.mle_value)%float.
Proof.
  do 2 eexists. split; [vm_compute; reflexivity |].
  split; [vm_compute; reflexivity |].
  split; [vm_compute; reflexivity |].
  split; [vm_compute; reflexivity |].
  split; [vm_compute; reflexivity |].
  intro H.
  apply (f_equal (fun x => PrimFloat.eqb x (2 * Binary64.mle_value))) in H.
  vm_compute in H. discriminate.
Qed.

(** A run of C5 on the stored results of [peaked3], at [alpha = 1/20]. *)
Lemma ci_likelihood_ratio_grid_witness :
  let mle := Scenario.stored_float Scenario.peaked3_ret "mle_value" in
  let ai := Scenario.stored_floats Scenario.peaked3_ret "values" in
  let pi := Scenario.stored_floats Scenario.peaked3_ret "probabilities" in
  let f := fun theta =>
    @loglik Sample.utils theta (_m Scenario.peaked3) ai pi 1 in
  let a_grid :=
    map (fun i => (Float.of_int (Z.of_nat i) / Float.of_int 9999)%Qc)
      (seq 0 (Z.to_nat 10000)) in
  let threshold :=
    (f mle - @chi2_quantile Sample.utils (Q2Qc (1 # 20)) / Float.of_int 2)%Qc in
  let selected := filter (fun theta => Float.leb threshold (f theta)) a_grid in
  (forall g, In g selected <-> In g a_grid /\ (threshold <= f g)%Qc)
  /\ (selected = [] ->
      fst (@ci Sample.numpy Sample.utils Scenario.peaked3 (Q2Qc (1 # 20))
             "likelihood_ratio" Scenario.peaked3_ret) = Raise ValueError)
  /\ (selected <> [] ->
      exists lo hi,
        fst (@ci Sample.numpy Sample.utils Scenario.peaked3 (Q2Qc (1 # 20))
               "likelihood_ratio" Scenario.peaked3_ret) = Ok (lo, hi)
        /\ In lo selected /\ In hi selected
        /\ forall g, In g selected -> (lo <= g <= hi)%Qc).
Proof.
  apply (@ci_likelihood_ratio_grid Sample.numpy Sample.utils Scenario.peaked3
           (Q2Qc (1 # 20)) Scenario.peaked3_ret 1
           (Scenario.stored_float Scenario.peaked3_ret "mle_value")
           (Scenario.stored_floats Scenario.peaked3_ret "values")
           (Scenario.stored_floats Scenario.peaked3_ret "probabilities")).
  unfold ci_ready. split; [| split; [| split]]; vm_compute; reflexivity.
Defined.

(** A run of C7: the method name [bogus] raises, the method name [fisher]
    does not raise the error of an unsupported method. *)
Lemma ci_unsupported_kind_raises_witness :
  (exists e,
      fst (@ci Sample.numpy Sample.utils Scenario.peaked3 (Q2Qc (1 # 20))
             "bogus" Scenario.peaked3_ret) = Raise e)
  /\ forall msg,
      fst (@ci Sample.numpy Sample.utils Scenario.peaked3 (Q2Qc (1 # 20))
             "fisher" Scenario.peaked3_ret) <> Raise (AquaError msg).
Proof.
  split.
  - refine (proj1 (proj1
      (@ci_unsupported_kind_raises Sample.numpy Sample.utils Scenario.peaked3
         (Q2Qc (1 # 20)) "bogus" Scenario.peaked3_ret) _ _ _));
      discriminate.
  - refine (proj2
      (@ci_unsupported_kind_raises Sample.numpy Sample.utils Scenario.peaked3
         (Q2Qc (1 # 20)) "fisher" Scenario.peaked3_ret) _).
    left. reflexivity.
Defined.

(** ** Where the code departs from its own intent *)

(** C1 at a failing input.  One evaluation qubit, all mass on the grid
    point of amplitude [1], a problem whose [value_to_estimation] is
    [1 + a]: after [_run] the stored values are the amplitudes [0] and [1]
    with probabilities [0] and [1], the stored ['estimation'] is the mapped
    value [2], and for every log-likelihood the search of [mle] starts
    from that mapped value [2], which is neither the amplitude [1] of
    highest probability nor a number of [[0, 1]]. *)
Theorem mle_seed_is_mapped_estimation (AU : AquaUtils) :
  exists a_opt loglik_opt,
    @mle_seed AU Scenario.shifted1 1 Scenario.shifted1_ret
    = (Ok (a_opt, loglik_opt), Scenario.shifted1_ret)
    /\ map this (Scenario.stored_floats Scenario.shifted1_ret "values")
       = [0%Q; 1%Q]
    /\ map this (Scenario.stored_floats Scenario.shifted1_ret "probabilities")
       = [0%Q; 1%Q]
    /\ a_opt = value_to_estimation (a_factory Scenario.shifted1) (Q2Qc 1)
    /\ this a_opt = 2%Q
    /\ ~ (0 <= a_opt <= 1)%Qc.
Proof.
  do 2 eexists. split; [vm_compute; reflexivity |].
  split; [vm_compute; reflexivity |].
  split; [vm_compute; reflexivity |].
  split; [apply Qc_is_canon; vm_compute; reflexivity |].
  split; [vm_compute; reflexivity |].
  intros [_ H]. vm_compute in H. apply H. reflexivity.
Qed.

(** C3 at a failing input.  Two evaluation qubits on the QASM simulator,
    one shot on the bit string of index [1] and one on that of index [3]:
    [_run] stores two amplitude keys, [sin^2(1 * pi / 4)] and
    [sin^2(3 * pi / 4)], taken from the raw indices and not rounded.  They
    differ from each other and from the rounded amplitude [0.5] of the
    folded index, under which the statevector path merges both. *)
Theorem qasm_amplitudes_not_rounded :
  exists s vs,
    @_run Sample.numpy Scenario.measured2 [] = (Ok s, s)
    /\ lookup s "values" = Some (PyFloats vs)
    /\ Permutation vs
         [@sin_squared Sample.numpy Scenario.measured2 1;
          @sin_squared Sample.numpy Scenario.measured2 3]
    /\ @sin_squared Sample.numpy Scenario.measured2 1
       <> @sin_squared Sample.numpy Scenario.measured2 3
    /\ @sin_squared Sample.numpy Scenario.measured2 1
       <> @amplitude Sample.numpy Scenario.measured2
            (fold_index Scenario.measured2 1)
    /\ @sin_squared Sample.numpy Scenario.measured2 3
       <> @amplitude Sample.numpy Scenario.measured2
            (fold_index Scenario.measured2 3)
    /\ @amplitude Sample.numpy Scenario.measured2
         (fold_index Scenario.measured2 1)
       = @amplitude Sample.numpy Scenario.measured2
           (fold_index Scenario.measured2 3)
    /\ this (@amplitude Sample.numpy Scenario.measured2
               (fold_index Scenario.measured2 1)) = (1 # 2)%Q.
Proof.
  do 2 eexists. split; [vm_compute; reflexivity |].
  split; [vm_compute; reflexivity |].
  split.
  { rewrite perm_swap. apply Permutation_refl' .
    repeat (f_equal; try (apply Qc_is_canon; vm_compute; reflexivity)). }
  split; [intro H; apply (f_equal this) in H; vm_compute in H; discriminate |].
  split; [intro H; apply (f_equal this) in H; vm_compute in H; discriminate |].
  split; [intro H; apply (f_equal this) in H; vm_compute in H; discriminate |].
  split; [apply Qc_is_canon; vm_compute; reflexivity |].
  vm_compute. reflexivity.
Qed.

(** * Further properties of the code *)

(** ** The bit order of the evaluation index *)

Section BitOrder.

Local Open Scope char_scope.
Local Open Scope Z_scope.

Lemma int2_acc_zeros (m : nat) :
  forall (z : Py.str) (acc : Z),
    Forall (fun c => c = "0") z -> (m <= List.length z)%nat ->
    Py.int2_acc acc (firstn m z) = Some (acc * 2 ^ Z.of_nat m).
Proof.
  induction m as [| m IH]; intros z acc Hz Hlen.
  - simpl. f_equal. lia.
  - destruct z as [| c z]; [simpl in Hlen; lia |].
    inversion Hz as [| ? ? Hc Hz']; subst. simpl in Hlen.
    cbn [firstn Py.int2_acc]. cbn [Py.digit2 Ascii.eqb Bool.eqb].
    rewrite IH by (auto; lia).
    rewrite Nat2Z.inj_succ, Z.pow_succ_r by lia. f_equal. ring.
Qed.

Lemma reversed_bits_zero (m : nat) : reversed_bits m 0 = 0.
Proof.
  induction m as [| m IH]; cbn [reversed_bits]; [reflexivity |].
  change (0 mod 2)%N with 0%N. change (0 / 2)%N with 0%N.
  rewrite IH. reflexivity.
Qed.

Lemma low_bit_odd (q : positive) :
  (N.pos q~1 mod 2 = 1 /\ N.pos q~1 / 2 = N.pos q)%N.
Proof.
  split; symmetry.
  - apply (N.mod_unique _ 2 (N.pos q)); [reflexivity | reflexivity].
  - apply (N.div_unique _ 2 _ 1); [reflexivity | reflexivity].
Qed.

Lemma low_bit_even (q : positive) :
  (N.pos q~0 mod 2 = 0 /\ N.pos q~0 / 2 = N.pos q)%N.
Proof.
  split; symmetry.
  - apply (N.mod_unique _ 2 (N.pos q)); [reflexivity | reflexivity].
  - apply (N.div_unique _ 2 _ 0); [reflexivity | reflexivity].
Qed.

Lemma rev_digits_cons (l : Py.str) (c : ascii) : rev (l ++ [c]) = c :: rev l.
Proof. rewrite rev_app_distr. reflexivity. Qed.

(** Reading [m] characters of the reversed digits of [p], padded with
    zeros, yields the [m] low bits of [p] in reverse order. *)
Lemma int2_acc_reversed_digits (m : nat) :
  forall (p : positive) (z : Py.str) (acc : Z),
    Forall (fun c => c = "0") z ->
    (m <= List.length (Py.pos_digits p) + List.length z)%nat ->
    Py.int2_acc acc (firstn m (rev (Py.pos_digits p) ++ z))
    = Some (acc * 2 ^ Z.of_nat m + reversed_bits m (Npos p)).
Proof.
  induction m as [| m IH]; intros p z acc Hz Hlen.
  - simpl. f_equal. lia.
  - rewrite Nat2Z.inj_succ, Z.pow_succ_r by lia.
    destruct p as [q | q |]; cbn [Py.pos_digits] in *.
    + rewrite rev_digits_cons. rewrite length_app in Hlen. simpl in Hlen.
      cbn [app firstn Py.int2_acc]. cbn [Py.digit2 Ascii.eqb Bool.eqb].
      rewrite IH by (auto; lia). cbn [reversed_bits].
      destruct (low_bit_odd q) as [-> ->].
      f_equal. change (Z.of_N 1) with 1. ring.
    + rewrite rev_digits_cons. rewrite length_app in Hlen. simpl in Hlen.
      cbn [app firstn Py.int2_acc]. cbn [Py.digit2 Ascii.eqb Bool.eqb].
      rewrite IH by (auto; lia). cbn [reversed_bits].
      destruct (low_bit_even q) as [-> ->].
      f_equal. change (Z.of_N 0) with 0. ring.
    + simpl in Hlen. cbn [rev app firstn Py.int2_acc].
      cbn [Py.digit2 Ascii.eqb Bool.eqb].
      rewrite int2_acc_zeros by (auto; lia). cbn [reversed_bits].
      change (1 mod 2)%N with 1%N. change (1 / 2)%N with 0%N.
      rewrite reversed_bits_zero. f_equal. change (Z.of_N 1) with 1. ring.
Qed.

Lemma zeros_repeat (k : nat) : Forall (fun c => c = "0") (repeat "0" k).
Proof. apply Forall_forall. intros c Hc. now apply repeat_spec in Hc. Qed.

(** X1. When the object has at least as many qubits as evaluation qubits
    (as [__init__] ensures) and at least one evaluation qubit, the grid
    index of the state of index [i] is made of the [m] least significant
    bits of [i] read in reverse order: bit [0] of [i] is the most
    significant bit of [y]. *)
Theorem evaluation_index_reverses_low_bits (self : AmplitudeEstimation)
    (i : nat) :
  (1 <= _m self)%nat -> (_m self <= _num_qubits self)%nat ->
  evaluation_index self i = Some (reversed_bits (_m self) (N.of_nat i)).
Proof.
  intros Hm Hq. unfold evaluation_index, Py.reversed, Py.rjust, Py.prefix.
  rewrite rev_app_distr.
  set (w := _num_qubits self) in *. set (m := _m self) in *.
  assert (Hint2 : forall s, s <> [] -> Py.int2 s = Py.int2_acc 0 s)
    by (intros [| c s] H; [congruence | reflexivity]).
  unfold Py.format_b. destruct (N.of_nat i) as [| p].
  - simpl rev. rewrite Hint2.
    + rewrite int2_acc_zeros.
      * rewrite reversed_bits_zero. reflexivity.
      * apply Forall_app. split; [repeat constructor |].
        apply Forall_rev, zeros_repeat.
      * rewrite length_app, length_rev, repeat_length. simpl. lia.
    + destruct m; [lia |]. simpl. discriminate.
  - rewrite Hint2.
    + rewrite int2_acc_reversed_digits.
      * reflexivity.
      * apply Forall_rev, zeros_repeat.
      * rewrite length_rev, repeat_length. lia.
    + destruct m; [lia |].
      destruct (rev (Py.pos_digits p)) eqn:E.
      * apply (f_equal (@rev ascii)) in E. rewrite rev_involutive in E.
        simpl in E. now apply pos_digits_nonempty in E.
      * simpl. discriminate.
Qed.

End BitOrder.

(** A run of X1: three evaluation qubits out of four qubits, state [6]
    (binary 0110, low bits 0, 1, 1) has grid index [3] (binary 011). *)
Lemma evaluation_index_reverses_low_bits_witness :
  evaluation_index Scenario.peaked3 6
  = Some (reversed_bits (_m Scenario.peaked3) (N.of_nat 6)).
Proof.
  apply (@evaluation_index_reverses_low_bits Scenario.peaked3 6);
    vm_compute; lia.
Defined.

(** ** Edge cases and invariants of [_evaluate_statevector_results] *)

Section StatevectorEdges.

Context {NP : Numpy}.

Local Open Scope Qc_scope.

Lemma nonneg_accumulate (K : Type) (eqb : K -> K -> bool) (d : dict K Qc)
    (k : K) (p : Qc) :
  Forall (fun v => 0 <= v) (values d) -> 0 <= p ->
  Forall (fun v => 0 <= v) (values (dict_set eqb d k (dict_get eqb d k 0 + p))).
Proof.
  unfold values. intros Hd Hp.
  assert (Hadd : forall v, 0 <= v -> 0 <= v + p).
  { intros v Hv. replace (Q2Qc 0) with (0 + 0) by ring.
    now apply Qcplus_le_compat. }
  induction d as [| [k0 v0] d IH]; simpl.
  - constructor; [| constructor]. apply Hadd, Qcle_refl.
  - inversion Hd as [| ? ? Hv0 Hd']; subst.
    destruct (eqb k k0); simpl; constructor; auto.
Qed.

Lemma y_loop_nonneg (self : AmplitudeEstimation) (probabilities : list Qc) :
  Forall (fun p => 0 <= p) probabilities ->
  forall i d d',
    y_loop self i probabilities d = Ok d' ->
    Forall (fun v => 0 <= v) (values d) ->
    Forall (fun v => 0 <= v) (values d').
Proof.
  induction 1 as [| p rest Hp Hrest IH]; intros i d d'; simpl.
  - intros [= <-]. auto.
  - destruct (evaluation_index self i) as [y |]; [| discriminate].
    intros H Hd. apply (IH _ _ _ H). now apply nonneg_accumulate.
Qed.

Lemma a_loop_nonneg (self : AmplitudeEstimation) (its : list (Z * Qc)) :
  Forall (fun v => 0 <= v) (values its) ->
  forall d,
    Forall (fun v => 0 <= v) (values d) ->
    Forall (fun v => 0 <= v) (values (fold_left (a_step self) its d)).
Proof.
  induction its as [| [y p] its IH]; intros Hits d Hd; simpl; [assumption |].
  unfold values in Hits. simpl in Hits.
  inversion Hits as [| ? ? Hp Hits']; subst.
  apply IH; [assumption |]. unfold a_step. now apply nonneg_accumulate.
Qed.

(** X3. If no input probability is negative, no value of the returned
    grid distribution and no value of the returned amplitude distribution
    is negative. *)
Theorem statevector_distributions_nonnegative (self : AmplitudeEstimation)
    (probabilities : list Qc) (a_probabilities : dict Qc Qc)
    (y_probabilities : dict Z Qc) :
  Forall (fun p => 0 <= p) probabilities ->
  _evaluate_statevector_results self probabilities
  = Ok (a_probabilities, y_probabilities) ->
  Forall (fun v => 0 <= v) (values y_probabilities)
  /\ Forall (fun v => 0 <= v) (values a_probabilities).
Proof.
  intros Hp. unfold _evaluate_statevector_results.
  destruct (y_loop self 0 probabilities []) as [d |] eqn:E; [| discriminate].
  intros [= <- <-].
  assert (Hy : Forall (fun v => 0 <= v) (values d)).
  { apply (y_loop_nonneg self Hp _ _ E). constructor. }
  split; [exact Hy |]. apply a_loop_nonneg; [exact Hy | constructor].
Qed.

(** A list without repetition, all of whose elements are images of the
    first [n] natural numbers, has at most [n] elements. *)
Lemma nodup_image_length (A : Type) (f : Z -> A) (n : nat) (l : list A) :
  NoDup l ->
  (forall a, In a l -> exists y, (0 <= y < Z.of_nat n)%Z /\ a = f y) ->
  (List.length l <= n)%nat.
Proof.
  intros Hnd Himg.
  apply Nat.le_trans
    with (List.length (map (fun i => f (Z.of_nat i)) (seq 0 n)));
    [| rewrite length_map, length_seq; lia].
  apply NoDup_incl_length; [assumption |].
  intros a Ha. destruct (Himg a Ha) as (y & Hy & ->).
  apply in_map_iff. exists (Z.to_nat y). split.
  - f_equal. lia.
  - apply in_seq. lia.
Qed.

(** X4. With at least one evaluation qubit, both distributions returned
    by [_evaluate_statevector_results] have pairwise distinct keys; the
    grid distribution has at most [M] entries and the amplitude
    distribution at most [M / 2 + 1], whatever the length of the input. *)
Theorem statevector_distribution_sizes (m : nat) (a_f q_f : CircuitFactory)
    (qi : QuantumInstance) (probabilities : list Qc)
    (a_probabilities : dict Qc Qc) (y_probabilities : dict Z Qc) :
  (1 <= m)%nat ->
  _evaluate_statevector_results (init m a_f q_f qi) probabilities
  = Ok (a_probabilities, y_probabilities) ->
  NoDup (keys y_probabilities) /\ NoDup (keys a_probabilities)
  /\ (Z.of_nat (List.length y_probabilities) <= 2 ^ Z.of_nat m)%Z
  /\ (Z.of_nat (List.length a_probabilities) <= 2 ^ Z.of_nat m / 2 + 1)%Z.
Proof.
  intros Hm. set (self := init m a_f q_f qi).
  assert (Hm' : (1 <= _m self)%nat) by exact Hm.
  unfold _evaluate_statevector_results.
  destruct (y_loop self 0 probabilities []) as [d |] eqn:E; [| discriminate].
  intros [= <- <-].
  assert (Hndy : NoDup (keys d))
    by (apply (y_loop_nodup _ _ _ _ E); constructor).
  assert (Hnda : NoDup (keys (fold_left (a_step self) (items d) [])))
    by (apply a_loop_nodup; constructor).
  assert (Hrange : forall y, In y (keys d) -> (0 <= y < 2 ^ Z.of_nat m)%Z).
  { intros y Hy.
    destruct (y_loop_keys self probabilities Hm' _ _ E y Hy) as [[] | H].
    exact H. }
  assert (Hpow : (0 < 2 ^ Z.of_nat m)%Z) by (apply Z.pow_pos_nonneg; lia).
  split; [exact Hndy |]. split; [exact Hnda |]. split.
  - assert (H : (List.length (keys d) <= Z.to_nat (2 ^ Z.of_nat m))%nat).
    { apply (nodup_image_length (fun y => y)); [exact Hndy |].
      intros y Hy. exists y. split; [| reflexivity].
      specialize (Hrange y Hy). lia. }
    unfold keys in H. rewrite length_map in H. lia.
  - assert (H : (List.length (keys (fold_left (a_step self) (items d) []))
                 <= Z.to_nat (2 ^ Z.of_nat m / 2 + 1))%nat).
    { apply (nodup_image_length (amplitude self)); [exact Hnda |].
      intros a Ha. apply a_loop_keys in Ha.
      destruct Ha as [[] | (y & Hy & ->)].
      exists (fold_index self y). split; [| reflexivity].
      pose proof (fold_index_range a_f q_f qi Hm (Hrange y Hy)) as Hf.
      change (_M (init m a_f q_f qi)) with (2 ^ Z.of_nat m)%Z in Hf.
      fold self in Hf.
      assert (0 <= 2 ^ Z.of_nat m / 2)%Z by (apply Z.div_pos; lia).
      lia. }
    unfold keys in H. rewrite length_map in H.
    assert (0 <= 2 ^ Z.of_nat m / 2)%Z by (apply Z.div_pos; lia).
    lia.
Qed.

End StatevectorEdges.

(** A run of X3 and of X4 on the uniform state vector of [uniform2]. *)
Lemma statevector_distributions_nonnegative_witness :
  Forall (fun v => (0 <= v)%Qc) (values (snd Scenario.uniform2_distributions))
  /\ Forall (fun v => (0 <= v)%Qc)
       (values (fst Scenario.uniform2_distributions)).
Proof.
  apply (@statevector_distributions_nonnegative Sample.numpy Scenario.uniform2
           (map (fun _ => Q2Qc (1 # 8)) (seq 0 8))).
  - repeat constructor; vm_compute; discriminate.
  - vm_compute. reflexivity.
Defined.

Lemma statevector_distribution_sizes_witness :
  NoDup (keys (snd Scenario.uniform2_distributions))
  /\ NoDup (keys (fst Scenario.uniform2_distributions))
  /\ (Z.of_nat (List.length (snd Scenario.uniform2_distributions))
      <= 2 ^ Z.of_nat 2)%Z
  /\ (Z.of_nat (List.length (fst Scenario.uniform2_distributions))
      <= 2 ^ Z.of_nat 2 / 2 + 1)%Z.
Proof.
  apply (@statevector_distribution_sizes Sample.numpy 2 Sample.plain
           Sample.plain
           (statevector_simulator
              (map (fun _ => (Q2Qc (1 # 4), Q2Qc (1 # 4))) (seq 0 8)))
           (map (fun _ => Q2Qc (1 # 8)) (seq 0 8))).
  - lia.
  - vm_compute. reflexivity.
Defined.

(** ** The QASM branch of [_run] *)

Section QasmFacts.

Context {NP : Numpy}.

Local Open Scope Qc_scope.

(** X6. On the QASM path, a non-empty dictionary of counts whose counts
    sum to zero never yields distributions: the first round raises
    [ZeroDivisionError] at [counts / shots], or [ValueError] before it
    when the measured string is no binary number. *)
Theorem qasm_zero_shots_raises (self : AmplitudeEstimation)
    (counts : list (string * Z)) :
  _quantum_instance self = qasm_simulator counts ->
  counts <> [] ->
  sum_counts counts = 0%Z ->
  aggregate self = Raise ZeroDivisionError
  \/ aggregate self = Raise ValueError.
Proof.
  intros Hqi Hne Hzero. unfold aggregate. rewrite Hqi, Hzero.
  destruct counts as [| [state n] counts]; [congruence |].
  unfold items. simpl.
  destruct (measured_index self state); auto.
Qed.

End QasmFacts.

(** A run of X6: two measured strings, no shot on either. *)
Lemma qasm_zero_shots_raises_witness :
  @aggregate Sample.numpy
    (init 2 Sample.plain Sample.plain
       (qasm_simulator [("10"%string, 0%Z); ("11"%string, 0%Z)]))
  = Raise ZeroDivisionError
  \/ @aggregate Sample.numpy
       (init 2 Sample.plain Sample.plain
          (qasm_simulator [("10"%string, 0%Z); ("11"%string, 0%Z)]))
     = Raise ValueError.
Proof.
  apply (@qasm_zero_shots_raises Sample.numpy
           (init 2 Sample.plain Sample.plain
              (qasm_simulator [("10"%string, 0%Z); ("11"%string, 0%Z)]))
           [("10"%string, 0%Z); ("11"%string, 0%Z)]).
  - reflexivity.
  - discriminate.
  - reflexivity.
Defined.

(** ** What [_run] stores *)

Section RunStores.

Context {NP : Numpy}.

Local Open Scope string_scope.
Local Open Scope Qc_scope.

(** X7. When the aggregation raises, [_run] raises the same exception
    before any list is built: the only key it has written is the raw
    outcome (['statevector'] or ['counts']), and every other key of the
    stored results, such as the lists of an earlier run, is as before. *)
Theorem run_raises_before_storing (self : AmplitudeEstimation) (s : Ret)
    (e : exn) :
  aggregate self = Raise e ->
  fst (_run self s) = Raise e
  /\ forall key, key <> "statevector" -> key <> "counts" ->
       lookup (snd (_run self s)) key = lookup s key.
Proof.
  intro Hagg. unfold _run, aggregate in *.
  destruct (_quantum_instance self) as [v | c];
    unfold bind, setitem, lift; rewrite Hagg; cbn [raise fst snd];
    (split; [reflexivity |]); intros key H1 H2; rewrite lookup_set.
  - destruct (String.eqb_spec key "statevector"); [congruence | reflexivity].
  - destruct (String.eqb_spec key "counts"); [congruence | reflexivity].
Qed.

(** The loop that determines the most likely estimator: the stored
    maximum never decreases, bounds every probability of the list, and
    the stored estimation is replaced exactly when the maximum grows, by
    the value of an item that attains the new maximum. *)
Lemma most_likely_loop_max (l : list (Qc * Qc)) :
  forall (s : Ret) (x : Qc) (e : pyval),
    lookup s "max_probability" = Some (PyFloat x) ->
    lookup s "estimation" = Some e ->
    exists s' x' e',
      for_each l most_likely_step s = (Ok tt, s')
      /\ lookup s' "max_probability" = Some (PyFloat x')
      /\ lookup s' "estimation" = Some e'
      /\ x <= x'
      /\ (forall vp, In vp l -> snd vp <= x')
      /\ ((x' = x /\ e' = e)
          \/ (x < x' /\ exists v, In (v, x') l /\ e' = PyFloat v))
      /\ (forall k, k <> "max_probability" -> k <> "estimation" ->
            lookup s' k = lookup s k).
Proof.
  induction l as [| [val prob] l IH]; intros s x e Hx He.
  - exists s, x, e. cbn [for_each]. unfold ret.
    repeat split; auto using Qcle_refl. intros vp [].
  - cbn [for_each]. unfold bind at 1. unfold most_likely_step.
    unfold bind at 1. unfold bind at 1. unfold getitem. rewrite Hx.
    cbn [as_float ret].
    destruct (Float.ltb x prob) eqn:E.
    + apply ltb_lt in E. unfold bind, setitem.
      set (s1 := dict_set String.eqb
                   (dict_set String.eqb s "max_probability" (PyFloat prob))
                   "estimation" (PyFloat val)).
      destruct (IH s1 prob (PyFloat val))
        as (s' & x' & e' & Hrun & Hmax & Hest & Hle & Hall & Hcase & Hframe).
      { unfold s1. rewrite !lookup_set. reflexivity. }
      { unfold s1. rewrite !lookup_set. reflexivity. }
      exists s', x', e'. split; [exact Hrun |]. split; [exact Hmax |].
      split; [exact Hest |].
      split; [eapply Qcle_trans; [apply Qclt_le_weak, E | exact Hle] |].
      split; [intros vp [<- | Hin]; [exact Hle | now apply Hall] |].
      split.
      * right. split; [eapply Qclt_le_trans; eassumption |].
        destruct Hcase as [[-> ->] | [_ (v & Hv & ->)]].
        -- exists val. split; [now left | reflexivity].
        -- exists v. split; [now right | reflexivity].
      * intros k Hk1 Hk2. rewrite (Hframe k Hk1 Hk2). unfold s1.
        rewrite !lookup_set.
        destruct (String.eqb_spec k "estimation"); [congruence |].
        destruct (String.eqb_spec k "max_probability"); [congruence |].
        reflexivity.
    + assert (Hpx : prob <= x).
      { apply Qcnot_lt_le. intro H. apply ltb_lt in H. congruence. }
      unfold ret.
      destruct (IH s x e Hx He)
        as (s' & x' & e' & Hrun & Hmax & Hest & Hle & Hall & Hcase & Hframe).
      exists s', x', e'. split; [exact Hrun |]. split; [exact Hmax |].
      split; [exact Hest |]. split; [exact Hle |].
      split; [intros vp [<- | Hin];
              [eapply Qcle_trans; eassumption | now apply Hall] |].
      split; [| exact Hframe].
      destruct Hcase as [Hsame | [Hlt (v & Hv & ->)]]; [now left |].
      right. split; [exact Hlt |]. exists v. split; [now right | reflexivity].
Qed.

(** Everything [_run] stores once the aggregation has returned. *)
Lemma run_stores_all (self : AmplitudeEstimation) (s : Ret)
    (a_probabilities : dict Qc Qc) (y_probabilities : dict Z Qc) :
  aggregate self = Ok (a_probabilities, y_probabilities) ->
  let a_items := fst (construct_items a_probabilities y_probabilities) in
  let y_items := snd (construct_items a_probabilities y_probabilities) in
  let mapped_values :=
    map (fun a_item => value_to_estimation (a_factory self) (fst a_item))
      a_items in
  let mapped_items := combine mapped_values (map snd a_items) in
  exists s' max_probability estimation,
    _run self s = (Ok s', s')
    /\ lookup s' "a_items" = Some (PyItems a_items)
    /\ lookup s' "y_items" = Some (PyYItems y_items)
    /\ lookup s' "mapped_values" = Some (PyFloats mapped_values)
    /\ lookup s' "values" = Some (PyFloats (map fst a_items))
    /\ lookup s' "y_values" = Some (PyInts (map fst y_items))
    /\ lookup s' "probabilities" = Some (PyFloats (map snd a_items))
    /\ lookup s' "mapped_items" = Some (PyItems mapped_items)
    /\ lookup s' "max_probability" = Some (PyFloat max_probability)
    /\ lookup s' "estimation" = Some estimation
    /\ 0 <= max_probability
    /\ (forall vp, In vp mapped_items -> snd vp <= max_probability)
    /\ ((max_probability = 0 /\ estimation = PyNone)
        \/ (0 < max_probability
            /\ exists v, In (v, max_probability) mapped_items
                         /\ estimation = PyFloat v)).
Proof.
  intros Hagg a_items y_items mapped_values mapped_items.
  unfold _run, aggregate in *.
  subst mapped_items mapped_values a_items y_items.
  destruct (construct_items a_probabilities y_probabilities)
    as [a_items y_items] eqn:Hitems. cbn [fst snd].
  set (s0 := match _quantum_instance self with
             | statevector_simulator v =>
                 dict_set String.eqb s "statevector" (PyStatevector v)
             | qasm_simulator c => dict_set String.eqb s "counts" (PyCounts c)
             end).
  match goal with
  | |- exists s' mp est, bind ?c ?k s = _ /\ _ =>
      assert (Hc : c s = (Ok (a_probabilities, y_probabilities), s0))
  end.
  { unfold s0. destruct (_quantum_instance self);
      unfold bind, setitem, lift; rewrite Hagg; reflexivity. }
  unfold bind at 1. rewrite Hc. cbn [fst snd]. rewrite Hitems.
  unfold bind, setitem.
  match goal with
  | |- exists s' mp est, match for_each ?l _ ?s9 with _ => _ end = _ /\ _ =>
      destruct (most_likely_loop_max l s9 (x := Q2Qc 0) (e := PyNone))
        as (s' & x' & e' & Hrun & Hmax & Hest & Hle & Hall & Hcase & Hframe)
  end.
  { rewrite !lookup_set. reflexivity. }
  { rewrite !lookup_set. reflexivity. }
  rewrite Hrun. exists s', x', e'. unfold return_ret.
  split; [reflexivity |].
  repeat (split;
          [rewrite Hframe by discriminate; rewrite !lookup_set; reflexivity |]).
  split; [exact Hmax |]. split; [exact Hest |]. split; [exact Hle |].
  split; [exact Hall |].
  destruct Hcase as [[-> ->] | Hgrow]; [left; auto | right; exact Hgrow].
Qed.

Lemma combine_maps (A B C : Type) (g : A -> B) (h : A -> C) (l : list A) :
  combine (map g l) (map h l) = map (fun x => (g x, h x)) l.
Proof. induction l as [| x l IH]; simpl; [| rewrite IH]; reflexivity. Qed.

Lemma construct_items_perm (a_p : dict Qc Qc) (y_p : dict Z Qc) :
  Permutation (items a_p) (fst (construct_items a_p y_p))
  /\ Permutation (items y_p) (snd (construct_items a_p y_p)).
Proof.
  unfold construct_items. cbn [fst snd]. rewrite !map_pair_id.
  split; apply sorted_perm.
Qed.

(** X8. After a successful [_run], the stored ['max_probability'] bounds
    every probability of the amplitude distribution.  If some probability
    is positive it is the largest one and ['estimation'] is
    [value_to_estimation] of an amplitude that carries it; if none is
    positive it is [0] and ['estimation'] is [None]. *)
Theorem run_most_likely_estimator (self : AmplitudeEstimation) (s : Ret)
    (a_probabilities : dict Qc Qc) (y_probabilities : dict Z Qc) :
  aggregate self = Ok (a_probabilities, y_probabilities) ->
  exists s' max_probability estimation,
    _run self s = (Ok s', s')
    /\ lookup s' "max_probability" = Some (PyFloat max_probability)
    /\ lookup s' "estimation" = Some estimation
    /\ (forall a p, In (a, p) (items a_probabilities) ->
          p <= max_probability)
    /\ ((max_probability = 0 /\ estimation = PyNone)
        \/ (0 < max_probability
            /\ exists a,
                 In (a, max_probability) (items a_probabilities)
                 /\ estimation
                    = PyFloat (value_to_estimation (a_factory self) a))).
Proof.
  intro Hagg.
  destruct (run_stores_all self s Hagg)
    as (s' & mp & est & Hrun & _ & _ & _ & _ & _ & _ & _ & Hmp & Hest
        & _ & Hall & Hcase).
  destruct (construct_items_perm a_probabilities y_probabilities)
    as [Hperm _].
  rewrite combine_maps in Hall, Hcase.
  exists s', mp, est. split; [exact Hrun |]. split; [exact Hmp |].
  split; [exact Hest |]. split.
  - intros a p Hin.
    apply (Hall (value_to_estimation (a_factory self) a, p)).
    apply in_map_iff. exists (a, p). split; [reflexivity |].
    eapply Permutation_in; eassumption.
  - destruct Hcase as [Hzero | [Hpos (v & Hv & ->)]]; [now left | right].
    split; [exact Hpos |].
    apply in_map_iff in Hv. destruct Hv as ([a p] & [= <- <-] & Hin).
    exists a. split; [| reflexivity].
    eapply Permutation_in; [apply Permutation_sym; exact Hperm | exact Hin].
Qed.

(** X9. After a successful [_run] the stored ['values'],
    ['probabilities'] and ['mapped_values'] are parallel arrays over the
    stored ['a_items']: they have its length, the first two zip back to
    it, ['mapped_values'] is [value_to_estimation] of ['values'] entry by
    entry, ['mapped_items'] zips it with ['probabilities'], and
    ['y_values'] lists the keys of ['y_items']. *)
Theorem run_parallel_arrays (self : AmplitudeEstimation) (s : Ret)
    (a_probabilities : dict Qc Qc) (y_probabilities : dict Z Qc) :
  aggregate self = Ok (a_probabilities, y_probabilities) ->
  exists s' a_items y_items vals probs mapped,
    _run self s = (Ok s', s')
    /\ lookup s' "a_items" = Some (PyItems a_items)
    /\ lookup s' "y_items" = Some (PyYItems y_items)
    /\ lookup s' "values" = Some (PyFloats vals)
    /\ lookup s' "probabilities" = Some (PyFloats probs)
    /\ lookup s' "mapped_values" = Some (PyFloats mapped)
    /\ lookup s' "mapped_items" = Some (PyItems (combine mapped probs))
    /\ lookup s' "y_values" = Some (PyInts (map fst y_items))
    /\ List.length vals = List.length a_items
    /\ List.length probs = List.length a_items
    /\ combine vals probs = a_items
    /\ mapped = map (value_to_estimation (a_factory self)) vals.
Proof.
  intro Hagg.
  destruct (run_stores_all self s Hagg)
    as (s' & mp & est & Hrun & Ha & Hy & Hmv & Hv & Hyv & Hp & Hmi & _).
  do 6 eexists. split; [exact Hrun |]. split; [exact Ha |].
  split; [exact Hy |]. split; [exact Hv |]. split; [exact Hp |].
  split; [exact Hmv |]. split; [exact Hmi |]. split; [exact Hyv |].
  rewrite !length_map. split; [reflexivity |]. split; [reflexivity |].
  split.
  - rewrite combine_maps. apply map_pair_id.
  - rewrite map_map. reflexivity.
Qed.

End RunStores.

(** A run of X7: two evaluation qubits on the QASM simulator, two measured
    strings and no shot on either, after an earlier run has stored its
    results. *)
Lemma run_raises_before_storing_witness :
  fst (@_run Sample.numpy
         (init 2 Sample.plain Sample.plain
            (qasm_simulator [("10"%string, 0%Z); ("11"%string, 0%Z)]))
         Scenario.peaked3_ret)
  = Raise ZeroDivisionError
  /\ forall key, key <> "statevector"%string -> key <> "counts"%string ->
       lookup
         (snd (@_run Sample.numpy
                 (init 2 Sample.plain Sample.plain
                    (qasm_simulator
                       [("10"%string, 0%Z); ("11"%string, 0%Z)]))
                 Scenario.peaked3_ret)) key
       = lookup Scenario.peaked3_ret key.
Proof.
  apply (@run_raises_before_storing Sample.numpy
           (init 2 Sample.plain Sample.plain
              (qasm_simulator [("10"%string, 0%Z); ("11"%string, 0%Z)]))
           Scenario.peaked3_ret ZeroDivisionError).
  vm_compute. reflexivity.
Defined.

(** A run of X8 and of X9 on [uniform2]. *)
Lemma run_most_likely_estimator_witness :
  exists s' max_probability estimation,
    @_run Sample.numpy Scenario.uniform2 [] = (Ok s', s')
    /\ lookup s' "max_probability" = Some (PyFloat max_probability)
    /\ lookup s' "estimation" = Some estimation
    /\ (forall a p,
          In (a, p) (items (fst Scenario.uniform2_distributions)) ->
          (p <= max_probability)%Qc)
    /\ ((max_probability = Q2Qc 0 /\ estimation = PyNone)
        \/ ((0 < max_probability)%Qc
            /\ exists a,
                 In (a, max_probability)
                   (items (fst Scenario.uniform2_distributions))
                 /\ estimation
                    = PyFloat
                        (value_to_estimation (a_factory Scenario.uniform2) a))).
Proof.
  apply (@run_most_likely_estimator Sample.numpy Scenario.uniform2 []
           (fst Scenario.uniform2_distributions)
           (snd Scenario.uniform2_distributions)).
  vm_compute. reflexivity.
Defined.

Lemma run_parallel_arrays_witness :
  exists s' a_items y_items vals probs mapped,
    @_run Sample.numpy Scenario.uniform2 [] = (Ok s', s')
    /\ lookup s' "a_items" = Some (PyItems a_items)
    /\ lookup s' "y_items" = Some (PyYItems y_items)
    /\ lookup s' "values" = Some (PyFloats vals)
    /\ lookup s' "probabilities" = Some (PyFloats probs)
    /\ lookup s' "mapped_values" = Some (PyFloats mapped)
    /\ lookup s' "mapped_items" = Some (PyItems (combine mapped probs))
    /\ lookup s' "y_values" = Some (PyInts (map fst y_items))
    /\ List.length vals = List.length a_items
    /\ List.length probs = List.length a_items
    /\ combine vals probs = a_items
    /\ mapped = map (value_to_estimation (a_factory Scenario.uniform2)) vals.
Proof.
  apply (@run_parallel_arrays Sample.numpy Scenario.uniform2 []
           (fst Scenario.uniform2_distributions)
           (snd Scenario.uniform2_distributions)).
  vm_compute. reflexivity.
Defined.

(** ** [mle] *)

Section MleFacts.

Context {NP : Numpy} {AU : AquaUtils}.

Local Open Scope string_scope.
Local Open Scope Qc_scope.

Lemma getitem_missing (key : string) (s : Ret) :
  lookup s key = None -> getitem key s = (Raise (KeyError key), s).
Proof. intro H. unfold getitem. rewrite H. reflexivity. Qed.

(** X10. Called before [_run] has stored anything to start from, [mle]
    raises [KeyError] and stores nothing: on a statevector backend the
    missing key is ['estimation'], on a QASM backend it is ['counts'],
    which is read first. *)
Theorem mle_before_run_raises (self : AmplitudeEstimation)
    (searchmin diagnostics : bool) (a_exact : option Qc) (s : Ret) :
  (is_statevector (_quantum_instance self) = true ->
   lookup s "estimation" = None ->
   mle self searchmin diagnostics a_exact s
   = (Raise (KeyError "estimation"), s))
  /\ (is_statevector (_quantum_instance self) = false ->
      lookup s "counts" = None ->
      mle self searchmin diagnostics a_exact s
      = (Raise (KeyError "counts"), s)).
Proof.
  unfold mle, get_shots. split; intros Hsv Hmiss; rewrite Hsv.
  - rewrite (@bind_ok _ _ _ _ s s 1%Z) by reflexivity.
    apply bind_raise. unfold mle_seed. apply bind_raise.
    now apply getitem_missing.
  - apply bind_raise. apply bind_raise. apply bind_raise.
    now apply getitem_missing.
Qed.

(** The candidate [mle] ends its search with. *)
Lemma mle_seed_ok (self : AmplitudeEstimation) (s : Ret) (shots : Z)
    (a0 : Qc) (ai pi : list Qc) :
  mle_ready self s shots a0 ai pi ->
  mle_seed self shots s
  = (Ok (a0, loglik_wrapper self ai pi shots a0), s).
Proof.
  intros (_ & He & Ha & Hp). unfold mle_seed.
  rewrite (@bind_ok _ _ _ _ s s (PyFloat a0))
    by (unfold getitem; rewrite He; reflexivity).
  rewrite (@bind_ok _ _ _ _ _ _ _ (read_floats_ok _ _ Ha)).
  rewrite (@bind_ok _ _ _ _ _ _ _ (read_floats_ok _ _ Hp)).
  reflexivity.
Qed.

(** X11. With [diagnostics] set and no exact value given, [mle] raises
    the [AquaError] that asks for it, after the search and before
    anything is stored: the stored results are unchanged. *)
Theorem mle_diagnostics_needs_exact_value (self : AmplitudeEstimation)
    (searchmin : bool) (s : Ret) (shots : Z) (a0 : Qc) (ai pi : list Qc) :
  mle_ready self s shots a0 ai pi ->
  mle self searchmin true None s
  = (Raise (AquaError
       "If diagnostics is set to true, the exact value should be given!"),
     s).
Proof.
  intro Hready. pose proof (mle_seed_ok Hready) as Hseed.
  destruct Hready as (Hshots & He & Ha & Hp). unfold mle.
  rewrite (@bind_ok _ _ _ _ _ _ _ (get_shots_ok _ _ Hshots)).
  rewrite (@bind_ok _ _ _ _ _ _ _ Hseed).
  rewrite (@bind_ok _ _ _ _ _ _ _ (read_floats_ok _ _ Ha)).
  rewrite (@bind_ok _ _ _ _ _ _ _ (read_floats_ok _ _ Hp)).
  reflexivity.
Qed.

(** The search keeps the better of the current candidate and each local
    maximum. *)
Lemma mle_step_unfold (f : Qc -> Qc) (best ab : Qc * Qc) :
  mle_step f best ab
  = if Float.ltb (snd best) (snd (bisect_max f (fst ab) (snd ab)))
    then bisect_max f (fst ab) (snd ab)
    else best.
Proof.
  destruct best as [a_opt loglik_opt], ab as [a b]. unfold mle_step.
  cbn [fst snd]. destruct (bisect_max f a b). reflexivity.
Qed.

Lemma mle_search_best (f : Qc -> Qc) (brs : list (Qc * Qc)) :
  forall seed,
    snd seed <= snd (fold_left (mle_step f) brs seed)
    /\ (forall ab, In ab brs ->
          snd (bisect_max f (fst ab) (snd ab))
          <= snd (fold_left (mle_step f) brs seed))
    /\ (fold_left (mle_step f) brs seed = seed
        \/ exists ab, In ab brs
                      /\ fold_left (mle_step f) brs seed
                         = bisect_max f (fst ab) (snd ab)).
Proof.
  induction brs as [| ab0 brs IH]; intro seed; cbn [fold_left].
  - split; [apply Qcle_refl |]. split; [intros ab [] | now left].
  - rewrite mle_step_unfold.
    destruct (Float.ltb (snd seed) (snd (bisect_max f (fst ab0) (snd ab0))))
      eqn:E.
    + apply ltb_lt in E.
      destruct (IH (bisect_max f (fst ab0) (snd ab0))) as (Hle & Hall & Hcase).
      split; [eapply Qcle_trans; [apply Qclt_le_weak, E | exact Hle] |].
      split.
      * intros ab [<- | Hin]; [exact Hle | now apply Hall].
      * right. destruct Hcase as [Hsame | (ab & Hin & Hab)].
        -- exists ab0. split; [now left | exact Hsame].
        -- exists ab. split; [now right | exact Hab].
    + assert (Hno : snd (bisect_max f (fst ab0) (snd ab0)) <= snd seed).
      { apply Qcnot_lt_le. intro H. apply ltb_lt in H. congruence. }
      destruct (IH seed) as (Hle & Hall & Hcase).
      split; [exact Hle |]. split.
      * intros ab [<- | Hin]; [| now apply Hall].
        eapply Qcle_trans; eassumption.
      * destruct Hcase as [Hsame | (ab & Hin & Hab)]; [now left | right].
        exists ab. split; [now right | exact Hab].
Qed.

(** X12. With its inputs stored and the diagnostics off, [mle] returns
    the stored results after writing two keys only: ['mle_value'], the
    first component of the candidate the search ends with, and ['mle'],
    its image under [value_to_estimation]; every other key is as
    before. *)
Theorem mle_stores_estimate (self : AmplitudeEstimation) (searchmin : bool)
    (a_exact : option Qc) (s : Ret) (shots : Z) (a0 : Qc) (ai pi : list Qc) :
  mle_ready self s shots a0 ai pi ->
  let f := loglik_wrapper self ai pi shots in
  let a_opt := fst (fold_left (mle_step f) (brackets (drops self)) (a0, f a0)) in
  exists s',
    mle self searchmin false a_exact s = (Ok s', s')
    /\ lookup s' "mle_value" = Some (PyFloat a_opt)
    /\ lookup s' "mle"
       = Some (PyFloat (value_to_estimation (a_factory self) a_opt))
    /\ forall key, key <> "mle" -> key <> "mle_value" ->
         lookup s' key = lookup s key.
Proof.
  intros Hready f a_opt. pose proof (mle_seed_ok Hready) as Hseed.
  destruct Hready as (Hshots & He & Ha & Hp). unfold mle.
  rewrite (@bind_ok _ _ _ _ _ _ _ (get_shots_ok _ _ Hshots)).
  rewrite (@bind_ok _ _ _ _ _ _ _ Hseed).
  rewrite (@bind_ok _ _ _ _ _ _ _ (read_floats_ok _ _ Ha)).
  rewrite (@bind_ok _ _ _ _ _ _ _ (read_floats_ok _ _ Hp)).
  fold f. fold a_opt. unfold bind, ret, setitem, return_ret.
  eexists. split; [reflexivity |].
  split; [rewrite !lookup_set; reflexivity |].
  split; [rewrite !lookup_set; reflexivity |].
  intros key H1 H2. rewrite !lookup_set.
  destruct (String.eqb_spec key "mle_value"); [congruence |].
  destruct (String.eqb_spec key "mle"); [congruence | reflexivity].
Qed.

(** X13. The candidate [mle] stores is the best of those it has looked
    at: it is the seed or the local maximum [bisect_max] returned on one
    of the brackets, and its log-likelihood value is at least the seed's
    and at least the value returned on every bracket. *)
Theorem mle_value_is_best_candidate (self : AmplitudeEstimation)
    (searchmin : bool) (a_exact : option Qc) (s : Ret) (shots : Z)
    (a0 : Qc) (ai pi : list Qc) :
  mle_ready self s shots a0 ai pi ->
  let f := loglik_wrapper self ai pi shots in
  exists s' a_opt loglik_opt,
    mle self searchmin false a_exact s = (Ok s', s')
    /\ lookup s' "mle_value" = Some (PyFloat a_opt)
    /\ ((a_opt, loglik_opt) = (a0, f a0)
        \/ exists a b, In (a, b) (brackets (drops self))
                       /\ (a_opt, loglik_opt) = bisect_max f a b)
    /\ f a0 <= loglik_opt
    /\ forall a b, In (a, b) (brackets (drops self)) ->
         snd (bisect_max f a b) <= loglik_opt.
Proof.
  intros Hready f. pose proof (mle_seed_ok Hready) as Hseed.
  destruct Hready as (Hshots & He & Ha & Hp). unfold mle.
  rewrite (@bind_ok _ _ _ _ _ _ _ (get_shots_ok _ _ Hshots)).
  rewrite (@bind_ok _ _ _ _ _ _ _ Hseed).
  rewrite (@bind_ok _ _ _ _ _ _ _ (read_floats_ok _ _ Ha)).
  rewrite (@bind_ok _ _ _ _ _ _ _ (read_floats_ok _ _ Hp)).
  fold f.
  destruct (mle_search_best f (brackets (drops self)) (a0, f a0))
    as (Hle & Hall & Hcase).
  set (best := fold_left (mle_step f) (brackets (drops self)) (a0, f a0)) in *.
  unfold bind, ret, setitem, return_ret.
  exists (dict_set String.eqb
            (dict_set String.eqb s "mle"
               (PyFloat (value_to_estimation (a_factory self) (fst best))))
            "mle_value" (PyFloat (fst best))), (fst best), (snd best).
  split; [reflexivity |]. split; [rewrite !lookup_set; reflexivity |].
  rewrite <- surjective_pairing. split.
  - destruct Hcase as [H | ([a b] & Hin & H)]; [now left | right].
    exists a, b. auto.
  - split; [exact Hle |]. intros a b Hin. exact (Hall (a, b) Hin).
Qed.

End MleFacts.

(** A run of X10: a fresh object on either backend. *)
Lemma mle_before_run_raises_witness :
  @mle Sample.numpy Sample.utils Scenario.peaked3 true false None []
  = (Raise (KeyError "estimation"), [])
  /\ @mle Sample.numpy Sample.utils Scenario.measured2 true false None []
     = (Raise (KeyError "counts"), []).
Proof.
  split.
  - apply (proj1 (@mle_before_run_raises Sample.numpy Sample.utils
                    Scenario.peaked3 true false None [])); reflexivity.
  - apply (proj2 (@mle_before_run_raises Sample.numpy Sample.utils
                    Scenario.measured2 true false None [])); reflexivity.
Defined.

(** A run of X11 on the stored results of [peaked3]. *)
Lemma mle_diagnostics_needs_exact_value_witness :
  @mle Sample.numpy Sample.utils Scenario.peaked3 true true None
    Scenario.peaked3_ret
  = (Raise (AquaError
       "If diagnostics is set to true, the exact value should be given!"),
     Scenario.peaked3_ret).
Proof.
  apply (@mle_diagnostics_needs_exact_value Sample.numpy Sample.utils
           Scenario.peaked3 true Scenario.peaked3_ret 1
           (Scenario.stored_float Scenario.peaked3_ret "estimation")
           (Scenario.stored_floats Scenario.peaked3_ret "values")
           (Scenario.stored_floats Scenario.peaked3_ret "probabilities")).
  unfold mle_ready. split; [| split; [| split]]; vm_compute; reflexivity.
Defined.

(** A run of X12 and of X13 on the stored results of [peaked3]. *)
Lemma mle_stores_estimate_witness :
  let a0 := Scenario.stored_float Scenario.peaked3_ret "estimation" in
  let f :=
    @loglik_wrapper Sample.utils Scenario.peaked3
      (Scenario.stored_floats Scenario.peaked3_ret "values")
      (Scenario.stored_floats Scenario.peaked3_ret "probabilities") 1 in
  let a_opt :=
    fst (fold_left (@mle_step Sample.utils f)
           (brackets (@drops Sample.numpy Scenario.peaked3)) (a0, f a0)) in
  exists s',
    @mle Sample.numpy Sample.utils Scenario.peaked3 true false None
      Scenario.peaked3_ret = (Ok s', s')
    /\ lookup s' "mle_value" = Some (PyFloat a_opt)
    /\ lookup s' "mle"
       = Some (PyFloat
                 (value_to_estimation (a_factory Scenario.peaked3) a_opt))
    /\ forall key, key <> "mle"%string -> key <> "mle_value"%string ->
         lookup s' key = lookup Scenario.peaked3_ret key.
Proof.
  apply (@mle_stores_estimate Sample.numpy Sample.utils Scenario.peaked3
           true None Scenario.peaked3_ret 1
           (Scenario.stored_float Scenario.peaked3_ret "estimation")
           (Scenario.stored_floats Scenario.peaked3_ret "values")
           (Scenario.stored_floats Scenario.peaked3_ret "probabilities")).
  unfold mle_ready. split; [| split; [| split]]; vm_compute; reflexivity.
Defined.

Lemma mle_value_is_best_candidate_witness :
  let a0 := Scenario.stored_float Scenario.peaked3_ret "estimation" in
  let f :=
    @loglik_wrapper Sample.utils Scenario.peaked3
      (Scenario.stored_floats Scenario.peaked3_ret "values")
      (Scenario.stored_floats Scenario.peaked3_ret "probabilities") 1 in
  exists s' a_opt loglik_opt,
    @mle Sample.numpy Sample.utils Scenario.peaked3 true false None
      Scenario.peaked3_ret = (Ok s', s')
    /\ lookup s' "mle_value" = Some (PyFloat a_opt)
    /\ ((a_opt, loglik_opt) = (a0, f a0)
        \/ exists a b,
             In (a, b) (brackets (@drops Sample.numpy Scenario.peaked3))
             /\ (a_opt, loglik_opt) = @bisect_max Sample.utils f a b)
    /\ (f a0 <= loglik_opt)%Qc
    /\ forall a b,
         In (a, b) (brackets (@drops Sample.numpy Scenario.peaked3)) ->
         (snd (@bisect_max Sample.utils f a b) <= loglik_opt)%Qc.
Proof.
  apply (@mle_value_is_best_candidate Sample.numpy Sample.utils
           Scenario.peaked3 true None Scenario.peaked3_ret 1
           (Scenario.stored_float Scenario.peaked3_ret "estimation")
           (Scenario.stored_floats Scenario.peaked3_ret "values")
           (Scenario.stored_floats Scenario.peaked3_ret "probabilities")).
  unfold mle_ready. split; [| split; [| split]]; vm_compute; reflexivity.
Defined.

(** ** The brackets of the search *)

Section Brackets.

Context {NP : Numpy}.

Local Open Scope Qc_scope.

Lemma np_linspace_length (start stop : Qc) (num : nat) (endpoint : bool) :
  List.length (Float.np_linspace start stop num endpoint) = num.
Proof. unfold Float.np_linspace. now rewrite length_map, length_seq. Qed.

(** [zip(l[:-1], l[1:])] pairs every element with the next one. *)
Lemma brackets_nth (l : list Qc) :
  List.length (brackets l) = (List.length l - 1)%nat
  /\ forall i, (S i < List.length l)%nat ->
       nth i (brackets l) (0, 0) = (nth i l 0, nth (S i) l 0).
Proof.
  unfold brackets. induction l as [| x l IH].
  - split; [reflexivity |]. intros i Hi. simpl in Hi. lia.
  - destruct l as [| y l].
    + split; [reflexivity |]. intros i Hi. simpl in Hi. lia.
    + destruct IH as [IHlen IHnth].
      change (removelast (x :: y :: l)) with (x :: removelast (y :: l)).
      change (tl (x :: y :: l)) with (y :: l).
      split.
      * cbn [combine List.length].
        change (tl (y :: l)) with l in IHlen.
        destruct l as [| z l].
        -- reflexivity.
        -- change (removelast (y :: z :: l)) with (y :: removelast (z :: l))
             in *.
           cbn [combine List.length] in *. lia.
      * intros [| i] Hi.
        -- destruct l; reflexivity.
        -- simpl in Hi.
           assert (Hi' : (S i < List.length (y :: l))%nat) by (simpl; lia).
           specialize (IHnth i Hi').
           change (tl (y :: l)) with l in IHnth.
           destruct l as [| z l]; [simpl in Hi'; lia |].
           change (removelast (y :: z :: l)) with (y :: removelast (z :: l))
             in *.
           cbn [combine nth] in *. exact IHnth.
Qed.

(** X14. [mle] searches [int(M / 2)] brackets: [drops] has one point per
    [k = 0 .. int(M / 2) - 1] followed by the point [1], and the brackets
    are the consecutive pairs of [drops], so that each bracket starts
    where the previous one ends and the last one ends at [1]. *)
Theorem mle_brackets_chain (self : AmplitudeEstimation) :
  let n := Z.to_nat (Z.quot (_M self) 2) in
  List.length (drops self) = S n
  /\ List.length (brackets (drops self)) = n
  /\ nth n (drops self) 0 = 1
  /\ forall i, (i < n)%nat ->
       nth i (brackets (drops self)) (0, 0)
       = (nth i (drops self) 0, nth (S i) (drops self) 0).
Proof.
  intro n.
  assert (Hlen : List.length (drops self) = S n).
  { unfold drops. rewrite length_app, length_map, np_linspace_length.
    simpl. fold n. lia. }
  destruct (brackets_nth (drops self)) as [Hb Hnth].
  split; [exact Hlen |]. split; [rewrite Hb, Hlen; lia |]. split.
  - unfold drops. rewrite app_nth2;
      rewrite length_map, np_linspace_length; fold n; [| lia].
    rewrite Nat.sub_diag. reflexivity.
  - intros i Hi. apply Hnth. rewrite Hlen. lia.
Qed.

End Brackets.

(** ** More on [ci] *)

Section CiMore.

Context {NP : Numpy} {AU : AquaUtils}.

Local Open Scope string_scope.
Local Open Scope Qc_scope.

(** X15. Called before [mle] has stored ['mle_value'], [ci] raises
    [KeyError] for that key whatever the method name, supported or not,
    and leaves the stored results as they are. *)
Theorem ci_before_mle_raises (self : AmplitudeEstimation) (alpha : Qc)
    (kind : string) (s : Ret) (shots : Z) :
  fst (get_shots self s) = Ok shots ->
  lookup s "mle_value" = None ->
  ci self alpha kind s = (Raise (KeyError "mle_value"), s).
Proof.
  intros Hshots Hmiss. unfold ci.
  rewrite (@bind_ok _ _ _ _ _ _ _ (get_shots_ok _ _ Hshots)).
  apply bind_raise. apply bind_raise. unfold getitem. now rewrite Hmiss.
Qed.

(** X16. With its inputs stored and an observed information [J] whose
    square root is not zero, the [observed_fisher] method returns
    [mle - q] and [mle + q] for [q = z(alpha) / sqrt(J)], where [J] is the
    sum over the stored pairs of [shots * p_i * d_logprob(a_i, mle, m)^2]. *)
Theorem ci_observed_fisher_offsets (self : AmplitudeEstimation)
    (alpha : Qc) (s : Ret) (shots : Z) (mle : Qc) (ai pi : list Qc) :
  ci_ready self s shots mle ai pi ->
  let J :=
    Float.np_sum
      (map (fun pd => Float.of_int shots * fst pd * (snd pd * (snd pd * 1)))
         (combine pi (map (fun a => d_logprob a mle (_m self)) ai))) in
  np_sqrt J <> 0 ->
  let q := normal_quantile alpha / np_sqrt J in
  fst (ci self alpha "observed_fisher" s) = Ok (mle - q, mle + q).
Proof.
  intros Hready J _ q.
  rewrite (ci_dispatch alpha "observed_fisher" Hready).
  cbn [String.eqb Ascii.eqb Bool.eqb].
  unfold ci_observed_fisher. now rewrite symmetric_interval_minus_plus.
Qed.

Lemma of_int_le (a b : Z) : (a <= b)%Z -> Float.of_int a <= Float.of_int b.
Proof.
  intro H. unfold Qcle, Float.of_int, Q2Qc. cbn [this].
  rewrite !Qred_correct. rewrite <- Zle_Qle. exact H.
Qed.

(** Every point of the grid is some [i / 9999] and lies in [[0, 1]]. *)
Lemma grid_point_range (g : Qc) :
  In g (Float.np_linspace 0 1 (Z.to_nat 10000) true) ->
  (exists i, (0 <= i <= 9999)%Z /\ g = Float.of_int i / Float.of_int 9999)
  /\ 0 <= g <= 1.
Proof.
  rewrite likelihood_grid. intro Hin. apply in_map_iff in Hin.
  destruct Hin as (i & <- & Hi). apply in_seq in Hi.
  assert (Hr : (0 <= Z.of_nat i <= 9999)%Z) by lia.
  assert (Hinv : 0 <= / Float.of_int 9999) by (vm_compute; discriminate).
  split; [exists (Z.of_nat i); split; [exact Hr | reflexivity] |].
  unfold Qcdiv. split.
  - replace (Q2Qc 0) with (Float.of_int 0 * / Float.of_int 9999)
      by (apply Qc_is_canon; reflexivity).
    apply Qcmult_le_compat_r; [apply of_int_le; lia | exact Hinv].
  - replace (Q2Qc 1) with (Float.of_int 9999 * / Float.of_int 9999)
      by (apply Qc_is_canon; reflexivity).
    apply Qcmult_le_compat_r; [apply of_int_le; lia | exact Hinv].
Qed.

(** What the [likelihood_ratio] method returns, read off its result. *)
Lemma likelihood_ratio_result (self : AmplitudeEstimation) (alpha mle : Qc)
    (ai pi : list Qc) (shots : Z) (lo hi : Qc) :
  ci_likelihood_ratio self alpha mle ai pi shots = Ok (lo, hi) ->
  In lo (kept_points (loglik_wrapper self ai pi shots)
           (Float.np_linspace 0 1 (Z.to_nat 10000) true)
           (loglik_wrapper self ai pi shots mle) (chi2_quantile alpha))
  /\ In hi (kept_points (loglik_wrapper self ai pi shots)
              (Float.np_linspace 0 1 (Z.to_nat 10000) true)
              (loglik_wrapper self ai pi shots mle) (chi2_quantile alpha))
  /\ forall g,
       In g (kept_points (loglik_wrapper self ai pi shots)
               (Float.np_linspace 0 1 (Z.to_nat 10000) true)
               (loglik_wrapper self ai pi shots mle) (chi2_quantile alpha)) ->
       lo <= g <= hi.
Proof.
  unfold ci_likelihood_ratio. cbv zeta.
  set (selected := kept_points _ _ _ _). clearbody selected.
  intro H.
  assert (Hne : selected <> []).
  { intro E. subst selected. cbn [Float.np_min] in H. discriminate. }
  destruct (np_min_spec Hne) as (lo' & Hlo & Hlo_in & Hlo_le).
  destruct (np_max_spec Hne) as (hi' & Hhi & Hhi_in & Hhi_le).
  rewrite Hlo, Hhi in H. injection H as <- <-.
  split; [exact Hlo_in |]. split; [exact Hhi_in |].
  intros g Hg. split; [apply Hlo_le | apply Hhi_le]; exact Hg.
Qed.

Lemma ci_likelihood_ratio_dispatch (self : AmplitudeEstimation)
    (alpha : Qc) (s : Ret) (shots : Z) (mle : Qc) (ai pi : list Qc) :
  ci_ready self s shots mle ai pi ->
  fst (ci self alpha "likelihood_ratio" s)
  = ci_likelihood_ratio self alpha mle ai pi shots.
Proof.
  intro Hready. rewrite (ci_dispatch alpha "likelihood_ratio" Hready).
  reflexivity.
Qed.

(** A kept point is a point of the grid whose log-likelihood reaches the
    threshold, and conversely. *)
Lemma kept_point_iff (f : Qc -> Qc) (a_grid : list Qc)
    (loglik_ref chi_q g : Qc) :
  In g (kept_points f a_grid loglik_ref chi_q)
  <-> In g a_grid /\ loglik_ref - chi_q / Float.of_int 2 <= f g.
Proof. unfold kept_points. rewrite filter_In, leb_le. reflexivity. Qed.

Lemma likelihood_ratio_raises (self : AmplitudeEstimation) (alpha mle : Qc)
    (ai pi : list Qc) (shots : Z) (e : exn) :
  ci_likelihood_ratio self alpha mle ai pi shots = Raise e -> e = ValueError.
Proof.
  unfold ci_likelihood_ratio. cbv zeta.
  set (selected := kept_points _ _ _ _). clearbody selected.
  destruct (Float.np_min selected), (Float.np_max selected); congruence.
Qed.

(** X17. With its inputs stored, the [likelihood_ratio] method either
    returns an interval whose ends are grid points [i / 9999] with
    [0 <= lo <= hi <= 1], or raises [ValueError] (no grid point kept);
    it raises nothing else ([unit_grid_interval]). *)
Theorem ci_likelihood_ratio_within_unit_interval
    (self : AmplitudeEstimation) (alpha : Qc) (s : Ret) (shots : Z)
    (mle : Qc) (ai pi : list Qc) :
  ci_ready self s shots mle ai pi ->
  unit_grid_interval (fst (ci self alpha "likelihood_ratio" s)).
Proof.
  intro Hready. rewrite (ci_likelihood_ratio_dispatch alpha Hready).
  unfold unit_grid_interval.
  destruct (ci_likelihood_ratio self alpha mle ai pi shots)
    as [[lo hi] | e] eqn:Hci.
  - destruct (likelihood_ratio_result _ _ _ _ _ _ Hci) as (Hlo & Hhi & Hall).
    pose proof (proj1 (Hall hi Hhi)) as Hle.
    apply kept_point_iff in Hlo, Hhi.
    destruct Hlo as [Hlo _], Hhi as [Hhi _].
    destruct (grid_point_range Hlo) as (Hi & Hlo0 & _).
    destruct (grid_point_range Hhi) as (Hj & _ & Hhi1).
    split; [exact Hlo0 |]. split; [exact Hle |]. split; [exact Hhi1 |].
    split; [exact Hi | exact Hj].
  - exact (likelihood_ratio_raises _ _ _ _ _ _ Hci).
Qed.

Lemma half_nonneg (c : Qc) : 0 <= c -> 0 <= c / Float.of_int 2.
Proof.
  intro Hc. unfold Qcdiv.
  replace (Q2Qc 0) with (0 * / Float.of_int 2) by ring.
  apply Qcmult_le_compat_r; [exact Hc | vm_compute; discriminate].
Qed.

Lemma threshold_antitone (ref c1 c2 : Qc) :
  c1 <= c2 -> ref - c2 / Float.of_int 2 <= ref - c1 / Float.of_int 2.
Proof.
  intro H. apply Qcle_minus_iff.
  replace (ref - c1 / Float.of_int 2 + - (ref - c2 / Float.of_int 2))
    with ((c2 + - c1) / Float.of_int 2) by (unfold Qcdiv; ring).
  apply half_nonneg. exact (proj1 (Qcle_minus_iff c1 c2) H).
Qed.

(** X18. The [likelihood_ratio] interval widens with the quantile: if
    [chi2_quantile(alpha1) <= chi2_quantile(alpha2)] and the method
    returns [(lo1, hi1)] at [alpha1], then at [alpha2] it returns an
    interval [(lo2, hi2)] with [lo2 <= lo1] and [hi1 <= hi2]
    ([widens_to]). *)
Theorem ci_likelihood_ratio_monotone (self : AmplitudeEstimation)
    (alpha1 alpha2 : Qc) (s : Ret) (shots : Z) (mle : Qc) (ai pi : list Qc) :
  ci_ready self s shots mle ai pi ->
  chi2_quantile alpha1 <= chi2_quantile alpha2 ->
  widens_to (fst (ci self alpha1 "likelihood_ratio" s))
    (fst (ci self alpha2 "likelihood_ratio" s)).
Proof.
  intros Hready Hchi.
  rewrite (ci_likelihood_ratio_dispatch alpha1 Hready).
  rewrite (ci_likelihood_ratio_dispatch alpha2 Hready).
  unfold widens_to.
  destruct (ci_likelihood_ratio self alpha1 mle ai pi shots)
    as [[lo1 hi1] | e] eqn:Hci; [| exact I].
  destruct (likelihood_ratio_result _ _ _ _ _ _ Hci) as (Hlo & Hhi & _).
  unfold ci_likelihood_ratio. cbv zeta.
  set (f := loglik_wrapper self ai pi shots) in *.
  set (a_grid := Float.np_linspace 0 1 (Z.to_nat 10000) true) in *.
  clearbody a_grid.
  assert (Hsub : forall g,
             In g (kept_points f a_grid (f mle) (chi2_quantile alpha1)) ->
             In g (kept_points f a_grid (f mle) (chi2_quantile alpha2))).
  { intros g Hg. apply kept_point_iff in Hg. apply kept_point_iff.
    destruct Hg as [Hin Hle]. split; [exact Hin |].
    eapply Qcle_trans; [apply threshold_antitone; exact Hchi | exact Hle]. }
  set (selected := kept_points f a_grid (f mle) (chi2_quantile alpha2)) in *.
  clearbody selected.
  assert (Hne : selected <> []).
  { intro E. specialize (Hsub lo1 Hlo). rewrite E in Hsub. exact Hsub. }
  destruct (np_min_spec Hne) as (lo2 & Hlo2 & _ & Hlo2_le).
  destruct (np_max_spec Hne) as (hi2 & Hhi2 & _ & Hhi2_le).
  exists lo2, hi2. rewrite Hlo2, Hhi2. split; [reflexivity |].
  split; [apply Hlo2_le | apply Hhi2_le]; apply Hsub; assumption.
Qed.

(** X19. If the stored maximum likelihood value is itself a grid point
    [i / 9999] and [chi2_quantile(alpha)] is not negative, the
    [likelihood_ratio] method returns an interval, and the interval
    contains the maximum likelihood value. *)
Theorem ci_likelihood_ratio_contains_grid_mle (self : AmplitudeEstimation)
    (alpha : Qc) (s : Ret) (shots : Z) (mle : Qc) (ai pi : list Qc) (i : Z) :
  ci_ready self s shots mle ai pi ->
  (0 <= i <= 9999)%Z ->
  mle = Float.of_int i / Float.of_int 9999 ->
  0 <= chi2_quantile alpha ->
  exists lo hi,
    fst (ci self alpha "likelihood_ratio" s) = Ok (lo, hi)
    /\ lo <= mle <= hi.
Proof.
  intros Hready Hi Hmle Hchi.
  rewrite (ci_likelihood_ratio_dispatch alpha Hready).
  unfold ci_likelihood_ratio. cbv zeta.
  set (f := loglik_wrapper self ai pi shots) in *.
  assert (Hin : In mle
                  (kept_points f (Float.np_linspace 0 1 (Z.to_nat 10000) true)
                     (f mle) (chi2_quantile alpha))).
  { apply kept_point_iff. split.
    - rewrite likelihood_grid. apply in_map_iff. exists (Z.to_nat i).
      split; [rewrite Hmle; f_equal; f_equal; lia | apply in_seq; lia].
    - apply Qcle_minus_iff.
      replace (f mle + - (f mle - chi2_quantile alpha / Float.of_int 2))
        with (chi2_quantile alpha / Float.of_int 2) by (unfold Qcdiv; ring).
      now apply half_nonneg. }
  set (selected := kept_points _ _ _ _) in *. clearbody selected.
  assert (Hne : selected <> []) by (intro E; rewrite E in Hin; exact Hin).
  destruct (np_min_spec Hne) as (lo & Hlo & _ & Hlo_le).
  destruct (np_max_spec Hne) as (hi & Hhi & _ & Hhi_le).
  exists lo, hi. rewrite Hlo, Hhi. split; [reflexivity |].
  split; [apply Hlo_le | apply Hhi_le]; exact Hin.
Qed.

(** X22. With its inputs stored, a normal quantile that is not negative
    and a positive standard deviation, the [fisher] and the
    [observed_fisher] method each return [mle - q] and [mle + q] for
    their [q = z(alpha) / std], an interval that contains the maximum
    likelihood value. *)
Theorem ci_fisher_methods_contain_mle (self : AmplitudeEstimation)
    (alpha : Qc) (s : Ret) (shots : Z) (mle : Qc) (ai pi : list Qc) :
  ci_ready self s shots mle ai pi ->
  0 <= normal_quantile alpha ->
  (0 < fisher_std self mle shots ->
   let q := normal_quantile alpha / fisher_std self mle shots in
   fst (ci self alpha "fisher" s) = Ok (mle - q, mle + q)
   /\ mle - q <= mle <= mle + q)
  /\ (0 < np_sqrt (observed_information self mle ai pi shots) ->
      let q :=
        normal_quantile alpha
        / np_sqrt (observed_information self mle ai pi shots) in
      fst (ci self alpha "observed_fisher" s) = Ok (mle - q, mle + q)
      /\ mle - q <= mle <= mle + q).
Proof.
  intros Hready Hz. split; intros Hstd q.
  - split.
    + rewrite (ci_dispatch alpha "fisher" Hready).
      cbn [String.eqb Ascii.eqb Bool.eqb].
      unfold ci_fisher. now rewrite symmetric_interval_minus_plus.
    + apply symmetric_interval_contains. now apply div_nonneg.
  - split.
    + rewrite (ci_dispatch alpha "observed_fisher" Hready).
      cbn [String.eqb Ascii.eqb Bool.eqb].
      unfold ci_observed_fisher. now rewrite symmetric_interval_minus_plus.
    + apply symmetric_interval_contains. now apply div_nonneg.
Qed.

End CiMore.

(** A run of X15: [ci] on the stored results of [shifted1] after [_run]
    alone. *)
Lemma ci_before_mle_raises_witness :
  @ci Sample.numpy Sample.utils Scenario.shifted1 (Q2Qc (1 # 20))
    "likelihood_ratio" Scenario.shifted1_ret
  = (Raise (KeyError "mle_value"), Scenario.shifted1_ret).
Proof.
  apply (@ci_before_mle_raises Sample.numpy Sample.utils Scenario.shifted1
           (Q2Qc (1 # 20)) "likelihood_ratio" Scenario.shifted1_ret 1);
    vm_compute; reflexivity.
Defined.

(** A run of X16 on the stored results of [uniform2], at [alpha = 1/20]:
    the observed information is [1/8]. *)
Lemma ci_observed_fisher_offsets_witness :
  let mle := Scenario.stored_float Spread.stored "mle_value" in
  let ai := Scenario.stored_floats Spread.stored "values" in
  let pi := Scenario.stored_floats Spread.stored "probabilities" in
  let J :=
    Float.np_sum
      (map (fun pd => (Float.of_int 1 * fst pd * (snd pd * (snd pd * 1)))%Qc)
         (combine pi
            (map (fun a => @d_logprob Sample.utils a mle (_m Scenario.uniform2))
               ai))) in
  let q :=
    (@normal_quantile Sample.utils (Q2Qc (1 # 20))
     / @np_sqrt Sample.numpy J)%Qc in
  J = Q2Qc (1 # 8)
  /\ fst (@ci Sample.numpy Sample.utils Scenario.uniform2 (Q2Qc (1 # 20))
            "observed_fisher" Spread.stored)
     = Ok ((mle - q)%Qc, (mle + q)%Qc).
Proof.
  split; [apply Qc_is_canon; vm_compute; reflexivity |].
  apply (@ci_observed_fisher_offsets Sample.numpy Sample.utils
           Scenario.uniform2 (Q2Qc (1 # 20)) Spread.stored 1
           (Scenario.stored_float Spread.stored "mle_value")
           (Scenario.stored_floats Spread.stored "values")
           (Scenario.stored_floats Spread.stored "probabilities")).
  - unfold ci_ready. split; [| split; [| split]]; vm_compute; reflexivity.
  - vm_compute. discriminate.
Defined.

(** A run of X17 on the stored results of [Certain], at [alpha = 1/2]:
    the inputs are stored and the result is well formed. *)
Lemma ci_likelihood_ratio_within_unit_interval_witness :
  ci_ready Certain.self Certain.stored 1
    (Scenario.stored_float Certain.stored "mle_value")
    (Scenario.stored_floats Certain.stored "values")
    (Scenario.stored_floats Certain.stored "probabilities")
  /\ unit_grid_interval
       (fst (@ci Sample.numpy Sample.utils Certain.self (Q2Qc (1 # 2))
               "likelihood_ratio" Certain.stored)).
Proof.
  assert (Hready : ci_ready Certain.self Certain.stored 1
            (Scenario.stored_float Certain.stored "mle_value")
            (Scenario.stored_floats Certain.stored "values")
            (Scenario.stored_floats Certain.stored "probabilities")).
  { unfold ci_ready. split; [| split; [| split]]; vm_compute; reflexivity. }
  split; [exact Hready |].
  exact (@ci_likelihood_ratio_within_unit_interval Sample.numpy Sample.utils
           Certain.self (Q2Qc (1 # 2)) Certain.stored 1 _ _ _ Hready).
Defined.

(** A run of X18 on the stored results of [Certain], from [alpha = 1/2]
    to [alpha = 1/20]. *)
Lemma ci_likelihood_ratio_monotone_witness :
  (@chi2_quantile Sample.utils (Q2Qc (1 # 2))
   <= @chi2_quantile Sample.utils (Q2Qc (1 # 20)))%Qc
  /\ widens_to
       (fst (@ci Sample.numpy Sample.utils Certain.self (Q2Qc (1 # 2))
               "likelihood_ratio" Certain.stored))
       (fst (@ci Sample.numpy Sample.utils Certain.self (Q2Qc (1 # 20))
               "likelihood_ratio" Certain.stored)).
Proof.
  assert (Hready : ci_ready Certain.self Certain.stored 1
            (Scenario.stored_float Certain.stored "mle_value")
            (Scenario.stored_floats Certain.stored "values")
            (Scenario.stored_floats Certain.stored "probabilities")).
  { unfold ci_ready. split; [| split; [| split]]; vm_compute; reflexivity. }
  assert (Hchi : (@chi2_quantile Sample.utils (Q2Qc (1 # 2))
                  <= @chi2_quantile Sample.utils (Q2Qc (1 # 20)))%Qc)
    by (vm_compute; discriminate).
  split; [exact Hchi |].
  exact (@ci_likelihood_ratio_monotone Sample.numpy Sample.utils
           Certain.self (Q2Qc (1 # 2)) (Q2Qc (1 # 20)) Certain.stored 1
           _ _ _ Hready Hchi).
Defined.

(** A run of X19 on the stored results of [Certain], whose maximum
    likelihood value is the grid point [9999 / 9999]. *)
Lemma ci_likelihood_ratio_contains_grid_mle_witness :
  exists lo hi,
    fst (@ci Sample.numpy Sample.utils Certain.self (Q2Qc (1 # 20))
           "likelihood_ratio" Certain.stored) = Ok (lo, hi)
    /\ (lo <= Scenario.stored_float Certain.stored "mle_value" <= hi)%Qc.
Proof.
  apply (@ci_likelihood_ratio_contains_grid_mle Sample.numpy Sample.utils
           Certain.self (Q2Qc (1 # 20)) Certain.stored 1
           (Scenario.stored_float Certain.stored "mle_value")
           (Scenario.stored_floats Certain.stored "values")
           (Scenario.stored_floats Certain.stored "probabilities") 9999).
  - unfold ci_ready. split; [| split; [| split]]; vm_compute; reflexivity.
  - lia.
  - apply Qc_is_canon. vm_compute. reflexivity.
  - vm_compute. discriminate.
Defined.

(** A run of X22 on the stored results of [uniform2], at [alpha = 1/20]:
    both methods. *)
Lemma ci_fisher_methods_contain_mle_witness :
  let mle := Scenario.stored_float Spread.stored "mle_value" in
  let ai := Scenario.stored_floats Spread.stored "values" in
  let pi := Scenario.stored_floats Spread.stored "probabilities" in
  let z := @normal_quantile Sample.utils (Q2Qc (1 # 20)) in
  let q1 :=
    (z / @fisher_std Sample.numpy Sample.utils Scenario.uniform2 mle 1)%Qc in
  let q2 :=
    (z / @np_sqrt Sample.numpy
           (@observed_information Sample.utils Scenario.uniform2 mle ai pi 1))%Qc
  in
  (fst (@ci Sample.numpy Sample.utils Scenario.uniform2 (Q2Qc (1 # 20))
          "fisher" Spread.stored)
   = Ok ((mle - q1)%Qc, (mle + q1)%Qc)
   /\ (mle - q1 <= mle <= mle + q1)%Qc)
  /\ (fst (@ci Sample.numpy Sample.utils Scenario.uniform2 (Q2Qc (1 # 20))
             "observed_fisher" Spread.stored)
      = Ok ((mle - q2)%Qc, (mle + q2)%Qc)
      /\ (mle - q2 <= mle <= mle + q2)%Qc).
Proof.
  intros mle ai pi z q1 q2.
  destruct (@ci_fisher_methods_contain_mle Sample.numpy Sample.utils
              Scenario.uniform2 (Q2Qc (1 # 20)) Spread.stored 1 mle ai pi)
    as [Hf Ho].
  - unfold ci_ready. split; [| split; [| split]]; vm_compute; reflexivity.
  - vm_compute. discriminate.
  - split; [apply Hf | apply Ho]; vm_compute; reflexivity.
Defined.

(** ** From [_run] to [mle] to [ci] *)

Section Pipeline.

Context {NP : Numpy} {AU : AquaUtils}.

Local Open Scope string_scope.
Local Open Scope Qc_scope.

(** After a successful [_run] the raw outcome is stored under its key. *)
Lemma run_keeps_counts (self : AmplitudeEstimation) (s : Ret)
    (counts : list (string * Z)) (a_probabilities : dict Qc Qc)
    (y_probabilities : dict Z Qc) :
  _quantum_instance self = qasm_simulator counts ->
  aggregate self = Ok (a_probabilities, y_probabilities) ->
  exists s', _run self s = (Ok s', s')
             /\ lookup s' "counts" = Some (PyCounts counts).
Proof.
  intros Hqi Hagg. unfold _run, aggregate in *. rewrite Hqi in *.
  destruct (construct_items a_probabilities y_probabilities)
    as [a_items y_items] eqn:Hitems.
  unfold bind at 1. unfold bind at 1. unfold setitem at 1.
  unfold lift. rewrite Hagg. cbn [ret fst snd]. rewrite Hitems.
  unfold bind, setitem.
  match goal with
  | |- exists s', match for_each ?l _ ?s9 with _ => _ end = _ /\ _ =>
      destruct (most_likely_loop l s9 (x := Q2Qc 0))
        as (s' & Hrun & _ & Hframe)
  end.
  { rewrite !lookup_set. reflexivity. }
  rewrite Hrun. exists s'. unfold return_ret. split; [reflexivity |].
  rewrite Hframe by discriminate. rewrite !lookup_set. reflexivity.
Qed.

(** X20. The number of shots [mle] and [ci] work with is [1] on a
    statevector backend, whatever is stored; on a QASM backend, after a
    successful [_run], it is the sum of the counts of that run. *)
Theorem shots_after_run (self : AmplitudeEstimation) (s : Ret) :
  (is_statevector (_quantum_instance self) = true ->
   get_shots self s = (Ok 1%Z, s))
  /\ (forall counts a_probabilities y_probabilities,
         _quantum_instance self = qasm_simulator counts ->
         aggregate self = Ok (a_probabilities, y_probabilities) ->
         fst (get_shots self (snd (_run self s))) = Ok (sum_counts counts)).
Proof.
  split.
  - intro Hsv. unfold get_shots. rewrite Hsv. reflexivity.
  - intros counts a_p y_p Hqi Hagg.
    destruct (run_keeps_counts self s Hqi Hagg) as (s' & Hrun & Hcounts).
    rewrite Hrun. cbn [snd]. unfold get_shots. rewrite Hqi. cbn [is_statevector].
    unfold bind, getitem. rewrite Hcounts. reflexivity.
Qed.

(** X21. On a statevector backend, if the aggregation returns and some
    probability of the amplitude distribution is positive, the pipeline
    runs through: [_run] returns, then [mle] (diagnostics off) returns
    and stores ['mle_value'], then [ci] with the [fisher] method returns
    an interval. *)
Theorem statevector_pipeline_returns (self : AmplitudeEstimation)
    (alpha : Qc) (searchmin : bool) (a_exact : option Qc) (s : Ret)
    (a_probabilities : dict Qc Qc) (y_probabilities : dict Z Qc) :
  is_statevector (_quantum_instance self) = true ->
  aggregate self = Ok (a_probabilities, y_probabilities) ->
  (exists a p, In (a, p) (items a_probabilities) /\ 0 < p) ->
  exists s1 s2 mle_value lo hi,
    _run self s = (Ok s1, s1)
    /\ mle self searchmin false a_exact s1 = (Ok s2, s2)
    /\ lookup s2 "mle_value" = Some (PyFloat mle_value)
    /\ fst (ci self alpha "fisher" s2) = Ok (lo, hi).
Proof.
  intros Hsv Hagg (a & p & Hin & Hp).
  destruct (run_stores_all self s Hagg)
    as (s1 & mp & est & Hrun & _ & _ & _ & Hv & _ & Hpr & _ & _ & Hest
        & _ & Hall & Hcase).
  destruct (construct_items_perm a_probabilities y_probabilities)
    as [Hperm _].
  rewrite combine_maps in Hall, Hcase.
  assert (Hpos : 0 < mp).
  { eapply Qclt_le_trans; [exact Hp |].
    apply (Hall (value_to_estimation (a_factory self) a, p)).
    apply in_map_iff. exists (a, p). split; [reflexivity |].
    eapply Permutation_in; eassumption. }
  destruct Hcase as [[Hzero _] | [_ (v & _ & ->)]].
  { exfalso. rewrite Hzero in Hpos. now apply (Qclt_not_eq _ _ Hpos). }
  set (vals := map fst (fst (construct_items a_probabilities y_probabilities)))
    in *.
  set (probs := map snd (fst (construct_items a_probabilities y_probabilities)))
    in *.
  assert (Hshots : forall st, get_shots self st = (Ok 1%Z, st))
    by (intro st; unfold get_shots; rewrite Hsv; reflexivity).
  assert (Hready : mle_ready self s1 1 v vals probs).
  { unfold mle_ready. rewrite Hshots. auto. }
  pose proof (mle_seed_ok Hready) as Hseed.
  set (f := loglik_wrapper self vals probs 1) in *.
  set (a_opt := fst (fold_left (mle_step f) (brackets (drops self)) (v, f v))).
  set (s2 := dict_set String.eqb
               (dict_set String.eqb s1 "mle"
                  (PyFloat (value_to_estimation (a_factory self) a_opt)))
               "mle_value" (PyFloat a_opt)).
  assert (Hmle : mle self searchmin false a_exact s1 = (Ok s2, s2)).
  { unfold mle.
    rewrite (@bind_ok _ _ _ _ _ _ _ (Hshots s1)).
    rewrite (@bind_ok _ _ _ _ _ _ _ Hseed).
    rewrite (@bind_ok _ _ _ _ _ _ _ (read_floats_ok _ _ Hv)).
    rewrite (@bind_ok _ _ _ _ _ _ _ (read_floats_ok _ _ Hpr)).
    reflexivity. }
  assert (Hci : ci_ready self s2 1 a_opt vals probs).
  { unfold ci_ready, s2. rewrite Hshots, !lookup_set. cbn [String.eqb Ascii.eqb Bool.eqb].
    auto. }
  exists s1, s2, a_opt.
  rewrite (ci_dispatch alpha "fisher" Hci). cbn [String.eqb Ascii.eqb Bool.eqb].
  unfold ci_fisher. rewrite symmetric_interval_minus_plus.
  do 2 eexists. split; [exact Hrun |]. split; [exact Hmle |].
  split; [unfold s2; rewrite !lookup_set; reflexivity |].
  reflexivity.
Qed.

End Pipeline.

(** A run of X20 on both backends. *)
Lemma shots_after_run_witness :
  @get_shots Scenario.peaked3 [] = (Ok 1%Z, [])
  /\ fst (@get_shots Scenario.measured2
            (snd (@_run Sample.numpy Scenario.measured2 [])))
     = Ok (sum_counts [("10"%string, 1%Z); ("11"%string, 1%Z)]).
Proof.
  split.
  - apply (proj1 (@shots_after_run Sample.numpy Scenario.peaked3 [])).
    reflexivity.
  - apply (proj2 (@shots_after_run Sample.numpy Scenario.measured2 [])
             [("10"%string, 1%Z); ("11"%string, 1%Z)]
             (match @aggregate Sample.numpy Scenario.measured2 with
              | Ok d => fst d
              | Raise _ => []
              end)
             (match @aggregate Sample.numpy Scenario.measured2 with
              | Ok d => snd d
              | Raise _ => []
              end)).
    + reflexivity.
    + vm_compute. reflexivity.
Defined.

(** A run of X21 on the uniform state vector of [uniform2]. *)
Lemma statevector_pipeline_returns_witness :
  exists s1 s2 mle_value lo hi,
    @_run Sample.numpy Scenario.uniform2 [] = (Ok s1, s1)
    /\ @mle Sample.numpy Sample.utils Scenario.uniform2 true false None s1
       = (Ok s2, s2)
    /\ lookup s2 "mle_value" = Some (PyFloat mle_value)
    /\ fst (@ci Sample.numpy Sample.utils Scenario.uniform2 (Q2Qc (1 # 20))
              "fisher" s2) = Ok (lo, hi).
Proof.
  apply (@statevector_pipeline_returns Sample.numpy Sample.utils
           Scenario.uniform2 (Q2Qc (1 # 20)) true None []
           (fst Scenario.uniform2_distributions)
           (snd Scenario.uniform2_distributions)).
  - reflexivity.
  - vm_compute. reflexivity.
  - exists (fst (hd (Q2Qc 0, Q2Qc 0)
                  (items (fst Scenario.uniform2_distributions)))),
      (snd (hd (Q2Qc 0, Q2Qc 0)
              (items (fst Scenario.uniform2_distributions)))).
    split; [vm_compute; left; reflexivity | vm_compute; reflexivity].
Defined.
